(** * Sistema de gestion: inventario, solicitudes, clientes en espera e historial

    Shallow embedding of [SistemaGestion] (C++/main final.cpp) and the
    properties of its undo mechanism, its queues and its sorted listing.

    Conventions of the embedding
    - a [std::list<T>] is a [list T]; [push_back x] is [l ++ [x]],
      [front]/[pop_front] destruct the head, [back]/[pop_back] destruct
      the last element;
    - a [std::string] is a [string] (a sequence of 8-bit characters);
      [operator==] is equality and [operator<] the lexicographic order
      on the character codes;
    - a [double] is carried as an IEEE-754 value ([spec_float]) and an
      [int] as a [Z]; the program never computes with either, it only
      stores, copies and prints them;
    - a method is a function from the state before the call to the state
      after it together with what the call sent to [std::cout], one item
      per [<<]. *)

From Stdlib Require Import ZArith Floats.SpecFloat.
From stdpp Require Import base list sorting strings.

#[local] Open Scope string_scope.
#[local] Open Scope list_scope.

(** ** Data model *)

(** [struct Producto]. *)
Record Producto : Type := mkProducto {
  nombre : string;
  precio : spec_float;
  cantidad : Z
}.

(** [struct Solicitud]. *)
Record Solicitud : Type := mkSolicitud {
  sol_id : Z;
  descripcion : string
}.

(** [struct Cliente]. *)
Record Cliente : Type := mkCliente {
  cli_id : Z;
  cli_nombre : string
}.

(** [struct Cambio]: [tipo] is a free-form string in the source. *)
Record Cambio : Type := mkCambio {
  tipo : string;
  producto : Producto
}.

(** The four private lists of [class SistemaGestion]. *)
Record SistemaGestion : Type := mkSistema {
  inventario : list Producto;
  solicitudes : list Solicitud;
  clientesEnEspera : list Cliente;
  historialCambios : list Cambio
}.

(** [SistemaGestion sistema;] : the four lists are default-constructed. *)
Definition sistema_inicial : SistemaGestion :=
  mkSistema [] [] [] [].

(** One insertion into [std::cout]. *)
Inductive Salida : Type :=
| Texto (s : string)
| Real (d : spec_float)
| Entero (z : Z)
| Endl.

(** ** Standard-library operations used by the methods *)

(** [std::find_if(l.begin(), l.end(), [&](const Producto& p)
    { return p.nombre == nombreProducto; })]: position and value of the
    first match, [None] standing for [l.end()]. *)
Definition find_if (nombreProducto : string) (l : list Producto)
  : option (nat * Producto) :=
  list_find (λ p, nombre p = nombreProducto) l.

(** [l.empty()], [l.back()] and [l.pop_back()] in one step: [None] on an
    empty list, otherwise the list without its last element and that
    element. *)
Fixpoint pop_back {A : Type} (l : list A) : option (list A * A) :=
  match l with
  | [] => None
  | x :: l' =>
      match pop_back l' with
      | None => Some ([], x)
      | Some (r, y) => Some (x :: r, y)
      end
  end.

(** [a.nombre < b.nombre] on [std::string]: [char_traits<char>] compares
    characters by their unsigned code, a proper prefix is smaller. *)
Definition comp (a b : Producto) : bool :=
  String.ltb (nombre a) (nombre b).

Section ListSort.
Context {A : Type} (lt : A → A → bool).

(** [l1.merge(l2, lt)]: the head of [l2] is taken only when it is
    strictly smaller than the head of [l1], so on a tie the element of
    [l1] goes first. *)
Fixpoint merge (l1 : list A) : list A → list A :=
  fix merge_aux (l2 : list A) : list A :=
    match l1, l2 with
    | [], _ => l2
    | _, [] => l1
    | x1 :: l1', x2 :: l2' =>
        if lt x2 x1 then x2 :: merge_aux l2' else x1 :: merge l1' l2
    end.

(** The inner loop of [std::list::sort]: [carry] is merged into the
    counters [tmp[0]], [tmp[1]], ... until an empty counter (or [fill])
    is reached, where it is stored; the counters passed on the way are
    left empty. *)
Fixpoint carry_into (tmp : list (list A)) (carry : list A)
  : list (list A) :=
  match tmp with
  | [] => [carry]
  | [] :: tmp' => carry :: tmp'
  | counter :: tmp' => [] :: carry_into tmp' (merge counter carry)
  end.

(** The outer loop: each element of the list, from the front, becomes a
    one-element [carry]. *)
Fixpoint fill_counters (tmp : list (list A)) (l : list A)
  : list (list A) :=
  match l with
  | [] => tmp
  | x :: l' => fill_counters (carry_into tmp [x]) l'
  end.

(** The final loop: every counter from [tmp + 1] up to [fill] merges
    into itself the counter just below it, here [acc]. *)
Fixpoint merge_counters (acc : list A) (tmp : list (list A)) : list A :=
  match tmp with
  | [] => acc
  | counter :: tmp' => merge_counters (merge counter acc) tmp'
  end.

(** [l.sort(lt)]: the stable merge sort of [std::list]. The library skips
    the loops for a list of fewer than two elements, on which they change
    nothing; its 64 counters suffice for any list that fits in memory. *)
Definition list_sort (l : list A) : list A :=
  merge_counters [] (fill_counters [] l).

(** [x] is not after [y]: [y] is not strictly smaller than [x]. *)
Definition not_after (x y : A) : Prop := lt y x = false.

(** [x] and [y] are equivalent for the order: neither is smaller. *)
Definition equiv_lt (x y : A) : Prop := lt x y = false ∧ lt y x = false.

#[global] Instance equiv_lt_dec x y : Decision (equiv_lt x y).
Proof. unfold equiv_lt. apply _. Defined.

(** The elements held by the counters, oldest first: a counter with a
    larger index holds elements that came earlier in the list. *)
Fixpoint counters_contents (tmp : list (list A)) : list A :=
  match tmp with
  | [] => []
  | counter :: tmp' => counters_contents tmp' ++ counter
  end.
End ListSort.

(** ** The methods of [SistemaGestion] *)

(** The line printed for a product by [consultarProducto] and
    [listarProductos]. *)
Definition linea_producto (p : Producto) : list Salida :=
  [Texto "Producto: "; Texto (nombre p); Texto ", Precio: "; Real (precio p);
   Texto ", Cantidad: "; Entero (cantidad p); Endl].

(** [SistemaGestion::registrarProducto] (lines 70-74). *)
Definition registrarProducto (p : Producto) (s : SistemaGestion)
  : SistemaGestion * list Salida :=
  (mkSistema (inventario s ++ [p]) (solicitudes s) (clientesEnEspera s)
     (historialCambios s ++ [mkCambio "agregar" p]),
   [Texto "Producto agregado: "; Texto (nombre p); Endl]).

(** [SistemaGestion::eliminarProducto] (lines 77-91): the copy of the
    product enters the history before the product is erased. *)
Definition eliminarProducto (nombreProducto : string) (s : SistemaGestion)
  : SistemaGestion * list Salida :=
  match find_if nombreProducto (inventario s) with
  | Some (it, p) =>
      (mkSistema (delete it (inventario s)) (solicitudes s)
         (clientesEnEspera s)
         (historialCambios s ++ [mkCambio "eliminar" p]),
       [Texto "Producto eliminado: "; Texto nombreProducto; Endl])
  | None => (s, [Texto "Producto no encontrado."; Endl])
  end.

(** [SistemaGestion::consultarProducto] (lines 94-106). *)
Definition consultarProducto (nombreProducto : string) (s : SistemaGestion)
  : SistemaGestion * list Salida :=
  match find_if nombreProducto (inventario s) with
  | Some (_, p) => (s, linea_producto p)
  | None => (s, [Texto "Producto no encontrado."; Endl])
  end.

(** [SistemaGestion::listarProductos] (lines 109-119): the member list
    itself is sorted, then printed. *)
Definition listarProductos (s : SistemaGestion)
  : SistemaGestion * list Salida :=
  let ordenado := list_sort comp (inventario s) in
  (mkSistema ordenado (solicitudes s) (clientesEnEspera s)
     (historialCambios s),
   concat (map linea_producto ordenado)).

(** [SistemaGestion::registrarSolicitud] (lines 122-125). *)
Definition registrarSolicitud (solicitud : Solicitud) (s : SistemaGestion)
  : SistemaGestion * list Salida :=
  (mkSistema (inventario s) (solicitudes s ++ [solicitud])
     (clientesEnEspera s) (historialCambios s),
   [Texto "Solicitud registrada: "; Texto (descripcion solicitud); Endl]).

(** [SistemaGestion::procesarSolicitud] (lines 128-136). *)
Definition procesarSolicitud (s : SistemaGestion)
  : SistemaGestion * list Salida :=
  match solicitudes s with
  | solicitud :: resto =>
      (mkSistema (inventario s) resto (clientesEnEspera s)
         (historialCambios s),
       [Texto "Procesando solicitud: "; Texto (descripcion solicitud); Endl])
  | [] => (s, [Texto "No hay solicitudes pendientes."; Endl])
  end.

(** [SistemaGestion::consultarSolicitudEnProceso] (lines 139-146). *)
Definition consultarSolicitudEnProceso (s : SistemaGestion)
  : SistemaGestion * list Salida :=
  match solicitudes s with
  | solicitud :: _ =>
      (s, [Texto "Solicitud en proceso: "; Texto (descripcion solicitud);
           Endl])
  | [] => (s, [Texto "No hay solicitudes en proceso."; Endl])
  end.

(** [SistemaGestion::listarSolicitudesPendientes] (lines 149-153). *)
Definition listarSolicitudesPendientes (s : SistemaGestion)
  : SistemaGestion * list Salida :=
  (s, concat (map (λ solicitud,
                     [Texto "Solicitud pendiente: ";
                      Texto (descripcion solicitud); Endl])
                (solicitudes s))).

(** [SistemaGestion::registrarClienteEnEspera] (lines 156-159). *)
Definition registrarClienteEnEspera (cliente : Cliente) (s : SistemaGestion)
  : SistemaGestion * list Salida :=
  (mkSistema (inventario s) (solicitudes s) (clientesEnEspera s ++ [cliente])
     (historialCambios s),
   [Texto "Cliente registrado: "; Texto (cli_nombre cliente); Endl]).

(** [SistemaGestion::atenderCliente] (lines 162-170). *)
Definition atenderCliente (s : SistemaGestion)
  : SistemaGestion * list Salida :=
  match clientesEnEspera s with
  | cliente :: resto =>
      (mkSistema (inventario s) (solicitudes s) resto (historialCambios s),
       [Texto "Atendiendo cliente: "; Texto (cli_nombre cliente); Endl])
  | [] => (s, [Texto "No hay clientes en espera."; Endl])
  end.

(** [SistemaGestion::consultarListaDeEspera] (lines 173-177). *)
Definition consultarListaDeEspera (s : SistemaGestion)
  : SistemaGestion * list Salida :=
  (s, concat (map (λ cliente,
                     [Texto "Cliente en espera: ";
                      Texto (cli_nombre cliente); Endl])
                (clientesEnEspera s))).

(** [SistemaGestion::deshacerUltimaAccion] (lines 180-202): the last
    entry leaves the history before its [tipo] is looked at; an ["agregar"]
    entry whose product is not found, like an entry of any other [tipo],
    changes nothing else and prints nothing. *)
Definition deshacerUltimaAccion (s : SistemaGestion)
  : SistemaGestion * list Salida :=
  match pop_back (historialCambios s) with
  | Some (historial, cambio) =>
      if String.eqb (tipo cambio) "agregar" then
        match find_if (nombre (producto cambio)) (inventario s) with
        | Some (it, _) =>
            (mkSistema (delete it (inventario s)) (solicitudes s)
               (clientesEnEspera s) historial,
             [Texto "Deshacer: Producto agregado eliminado: ";
              Texto (nombre (producto cambio)); Endl])
        | None =>
            (mkSistema (inventario s) (solicitudes s) (clientesEnEspera s)
               historial, [])
        end
      else if String.eqb (tipo cambio) "eliminar" then
        (mkSistema (inventario s ++ [producto cambio]) (solicitudes s)
           (clientesEnEspera s) historial,
         [Texto "Deshacer: Producto eliminado restaurado: ";
          Texto (nombre (producto cambio)); Endl])
      else
        (mkSistema (inventario s) (solicitudes s) (clientesEnEspera s)
           historial, [])
  | None => (s, [Texto "No hay cambios para deshacer."; Endl])
  end.

(** ** The menu of [main] *)

(** The twelve menu entries that call a method, with the values [main]
    has read for them; entry 13 and an invalid number call none. *)
Inductive Opcion : Type :=
| RegistrarProducto (p : Producto)
| EliminarProducto (nombreProducto : string)
| ConsultarProducto (nombreProducto : string)
| ListarProductos
| RegistrarSolicitud (solicitud : Solicitud)
| ProcesarSolicitud
| ConsultarSolicitudEnProceso
| ListarSolicitudesPendientes
| RegistrarClienteEnEspera (cliente : Cliente)
| AtenderCliente
| ConsultarListaDeEspera
| DeshacerUltimaAccion.

(** The [switch (opcion)] of [main], cases 1 to 12. *)
Definition ejecutar (op : Opcion) (s : SistemaGestion)
  : SistemaGestion * list Salida :=
  match op with
  | RegistrarProducto p => registrarProducto p s
  | EliminarProducto n => eliminarProducto n s
  | ConsultarProducto n => consultarProducto n s
  | ListarProductos => listarProductos s
  | RegistrarSolicitud r => registrarSolicitud r s
  | ProcesarSolicitud => procesarSolicitud s
  | ConsultarSolicitudEnProceso => consultarSolicitudEnProceso s
  | ListarSolicitudesPendientes => listarSolicitudesPendientes s
  | RegistrarClienteEnEspera c => registrarClienteEnEspera c s
  | AtenderCliente => atenderCliente s
  | ConsultarListaDeEspera => consultarListaDeEspera s
  | DeshacerUltimaAccion => deshacerUltimaAccion s
  end.

(** The state after a session in which the menu entries [ops] were chosen
    in this order. *)
Definition sesion (ops : list Opcion) (s : SistemaGestion) : SistemaGestion :=
  foldl (λ st op, (ejecutar op st).1) s ops.

(** ** Vocabulary of the properties *)

(** Non-decreasing name order between two products. *)
Definition nombre_le (a b : Producto) : Prop :=
  String.leb (nombre a) (nombre b) = true.

(** The products of [l] named [n], in the order in which [l] holds them. *)
Definition llamados (n : string) (l : list Producto) : list Producto :=
  filter (λ p, nombre p = n) l.

(** No product of [l] is named [n]. *)
Definition sin_nombre (n : string) (l : list Producto) : Prop :=
  Forall (λ p, nombre p ≠ n) l.

(** The menu entries that register or delete a product. *)
Definition alta_o_baja (op : Opcion) : Prop :=
  match op with
  | RegistrarProducto _ | EliminarProducto _ => True
  | _ => False
  end.

(** The history expected after one menu entry: one entry appended by a registration or by a deletion that finds its
    product, the most recent entry removed by an undo, no change
    otherwise. *)
Definition historial_esperado (op : Opcion) (s : SistemaGestion)
  : list Cambio :=
  match op with
  | RegistrarProducto p => historialCambios s ++ [mkCambio "agregar" p]
  | EliminarProducto n =>
      match find_if n (inventario s) with
      | Some (_, q) => historialCambios s ++ [mkCambio "eliminar" q]
      | None => historialCambios s
      end
  | DeshacerUltimaAccion => removelast (historialCambios s)
  | _ => historialCambios s
  end.

(** Where an entry of the history comes from, in a session that chose the
    menu entries [ops] from the initial state: an ["agregar"] entry from a
    registration of its product, an ["eliminar"] entry from a deletion
    that found its product in the inventory of that moment. *)
Definition origen (ops : list Opcion) (c : Cambio) : Prop :=
  (tipo c = "agregar" ∧
   ∃ pre post, ops = pre ++ RegistrarProducto (producto c) :: post) ∨
  (tipo c = "eliminar" ∧
   ∃ pre n post it,
     ops = pre ++ EliminarProducto n :: post ∧
     find_if n (inventario (sesion pre sistema_inicial))
       = Some (it, producto c)).

(** ** Sample data *)

(** 9.99 as a [double]. *)
Definition widget : Producto :=
  mkProducto "Widget" (S754_finite false 5623870034678907 (-49)) 5.

Definition apple : Producto :=
  mkProducto "Apple" (S754_finite false 1 0) 1.

Definition banana : Producto :=
  mkProducto "Banana" (S754_finite false 1 1) 1.

(** A second product named like [apple], with other fields. *)
Definition apple_caro : Producto :=
  mkProducto "Apple" (S754_finite false 3 0) 7.

Definition altas : list Opcion :=
  [RegistrarProducto banana; RegistrarProducto apple;
   RegistrarProducto apple_caro].

(** Registrations and one deletion that leave the inventory
    [banana; apple; apple_caro], out of name order. *)
Definition altas_y_baja : list Opcion :=
  RegistrarProducto widget :: altas ++ [EliminarProducto "Widget"].

(** The state after [altas], one request and one client. *)
Definition almacen : SistemaGestion :=
  mkSistema [banana; apple; apple_caro]
    [mkSolicitud 0 "dos cajas"] [mkCliente 0 "Ana"]
    [mkCambio "agregar" banana; mkCambio "agregar" apple;
     mkCambio "agregar" apple_caro].

(** ** Repeated calls and the balance of the history *)

(** [n] calls of a method in a row, with everything they print. *)
Fixpoint repetir (metodo : SistemaGestion → SistemaGestion * list Salida)
  (n : nat) (s : SistemaGestion) : SistemaGestion * list Salida :=
  match n with
  | 0 => (s, [])
  | S n' =>
      ((repetir metodo n' (metodo s).1).1,
       (metodo s).2 ++ (repetir metodo n' (metodo s).1).2)
  end.

(** What the history entry [c] stands for in the number of products whose
    name satisfies [P]: one product more for ["agregar"], one less for
    ["eliminar"]. *)
Definition efecto (P : string → bool) (c : Cambio) : Z :=
  if P (nombre (producto c)) then
    if String.eqb (tipo c) "agregar" then 1%Z
    else if String.eqb (tipo c) "eliminar" then (-1)%Z
    else 0%Z
  else 0%Z.

(** The balance of a history for the names that satisfy [P]. *)
Definition saldo (P : string → bool) (h : list Cambio) : Z :=
  foldr (λ c z, (efecto P c + z)%Z) 0%Z h.

(** The number of products whose name satisfies [P]. *)
Definition cuenta (P : string → bool) (l : list Producto) : Z :=
  Z.of_nat (length (filter (λ p, P (nombre p) = true) l)).

(** The inventory mirrors the history: for every set of names the number
    of products equals the balance of the history, and no older part of
    the history has a negative balance for a name. *)
Definition espejo (s : SistemaGestion) : Prop :=
  (∀ P, cuenta P (inventario s) = saldo P (historialCambios s)) ∧
  (∀ r r' n, historialCambios s = r ++ r' →
             (0 ≤ saldo (String.eqb n) r)%Z).

(** The lines of the three listings and of the two queues. *)
Definition linea_pendiente (solicitud : Solicitud) : list Salida :=
  [Texto "Solicitud pendiente: "; Texto (descripcion solicitud); Endl].

Definition linea_procesando (solicitud : Solicitud) : list Salida :=
  [Texto "Procesando solicitud: "; Texto (descripcion solicitud); Endl].

Definition linea_en_espera (cliente : Cliente) : list Salida :=
  [Texto "Cliente en espera: "; Texto (cli_nombre cliente); Endl].

Definition linea_atendiendo (cliente : Cliente) : list Salida :=
  [Texto "Atendiendo cliente: "; Texto (cli_nombre cliente); Endl].

(** More sample data: two requests, two clients, three products with
    different names. *)
Definition pedidos : list Solicitud :=
  [mkSolicitud 0 "dos cajas"; mkSolicitud 0 "una bolsa"].

Definition clientes : list Cliente :=
  [mkCliente 0 "Ana"; mkCliente 0 "Luis"].

Definition cereza : Producto :=
  mkProducto "Cereza" (S754_finite false 3 (-1)) 12.

(** ** The order of [std::string] *)

Lemma ascii_compare_lt_trans a b c :
  Ascii.compare a b = Lt → Ascii.compare b c = Lt → Ascii.compare a c = Lt.
Proof.
  unfold Ascii.compare. rewrite !N.compare_lt_iff. lia.
Qed.

Lemma ascii_compare_refl a : Ascii.compare a a = Eq.
Proof. unfold Ascii.compare. apply N.compare_refl. Qed.

Lemma string_compare_lt_trans s1 : ∀ s2 s3,
  String.compare s1 s2 = Lt → String.compare s2 s3 = Lt →
  String.compare s1 s3 = Lt.
Proof.
  induction s1 as [|a s1 IH]; intros [|b s2] [|c s3]; simpl; try done.
  destruct (Ascii.compare a b) eqn:Hab; try done;
    destruct (Ascii.compare b c) eqn:Hbc; try done; intros H1 H2.
  - apply Ascii.compare_eq_iff in Hab, Hbc. subst.
    rewrite ascii_compare_refl. eauto.
  - apply Ascii.compare_eq_iff in Hab. subst. by rewrite Hbc.
  - apply Ascii.compare_eq_iff in Hbc. subst. by rewrite Hab.
  - by rewrite (ascii_compare_lt_trans a b c).
Qed.

Lemma string_ltb_leb s1 s2 : String.ltb s2 s1 = negb (String.leb s1 s2).
Proof.
  unfold String.ltb, String.leb. rewrite (String.compare_antisym s1 s2).
  by destruct (String.compare s2 s1).
Qed.

Lemma string_leb_trans s1 s2 s3 :
  String.leb s1 s2 = true → String.leb s2 s3 = true → String.leb s1 s3 = true.
Proof.
  unfold String.leb.
  destruct (String.compare s1 s2) eqn:H12; try done;
    destruct (String.compare s2 s3) eqn:H23; try done; intros _ _.
  - apply String.compare_eq_iff in H12. subst. by rewrite H23.
  - apply String.compare_eq_iff in H12. subst. by rewrite H23.
  - apply String.compare_eq_iff in H23. subst. by rewrite H12.
  - by rewrite (string_compare_lt_trans s1 s2 s3).
Qed.

(** ** [std::list::merge] and [std::list::sort] *)

Section ListSortFacts.
Context {A : Type} (lt : A → A → bool).
Hypothesis lt_asym : ∀ x y, lt x y = true → lt y x = false.
Hypothesis not_after_trans : ∀ x y z,
  not_after lt x y → not_after lt y z → not_after lt x z.

Abbreviation le := (not_after lt).
Abbreviation eqv := (equiv_lt lt).

Lemma merge_nil_l l2 : merge lt [] l2 = l2.
Proof. by destruct l2. Qed.

Lemma merge_nil_r l1 : merge lt l1 [] = l1.
Proof. by destruct l1. Qed.

Lemma merge_cons x1 x2 l1 l2 :
  merge lt (x1 :: l1) (x2 :: l2) =
    if lt x2 x1 then x2 :: merge lt (x1 :: l1) l2
    else x1 :: merge lt l1 (x2 :: l2).
Proof. done. Qed.

Lemma merge_Permutation l1 : ∀ l2, merge lt l1 l2 ≡ₚ l1 ++ l2.
Proof.
  induction l1 as [|x1 l1 IH1]; intros l2.
  { by rewrite merge_nil_l. }
  induction l2 as [|x2 l2 IH2].
  { by rewrite merge_nil_r, app_nil_r. }
  rewrite merge_cons. destruct (lt x2 x1).
  - rewrite IH2. by rewrite <-Permutation_middle.
  - by rewrite IH1.
Qed.

Lemma HdRel_merge x l1 l2 :
  HdRel le x l1 → HdRel le x l2 → HdRel le x (merge lt l1 l2).
Proof.
  destruct 1 as [|x1 l1 H1], 1 as [|x2 l2 H2];
    rewrite ?merge_nil_l, ?merge_nil_r; try by constructor.
  rewrite merge_cons. destruct (lt x2 x1); by constructor.
Qed.

Lemma Sorted_merge l1 : ∀ l2,
  Sorted le l1 → Sorted le l2 → Sorted le (merge lt l1 l2).
Proof.
  induction l1 as [|x1 l1 IH1]; intros l2 Hl1 Hl2.
  { by rewrite merge_nil_l. }
  induction l2 as [|x2 l2 IH2].
  { by rewrite merge_nil_r. }
  rewrite merge_cons. destruct (lt x2 x1) eqn:Hlt.
  - apply Sorted_inv in Hl2 as [Hl2 Hhd]. constructor; [by apply IH2|].
    apply HdRel_merge; [|done]. constructor. by apply lt_asym.
  - apply Sorted_inv in Hl1 as [Hl1 Hhd]. constructor; [by apply IH1|].
    apply HdRel_merge; [done|]. by constructor.
Qed.

#[local] Instance not_after_transitive : Transitive le.
Proof. intros x y z. apply not_after_trans. Qed.

Lemma filter_equiv_above z x l :
  lt z x = true → Forall (le x) l → filter (eqv z) l = [].
Proof.
  intros Hzx Hl. induction Hl as [|y l Hy _ IH]; [done|].
  rewrite filter_cons_False; [done|]. intros [Hzy Hyz].
  assert (le x z) as Hxz by (by apply (not_after_trans x y z)).
  unfold not_after in Hxz. congruence.
Qed.

Lemma equiv_lt_above z x y : eqv z x → lt x y = true → lt z y = true.
Proof.
  intros [Hzx Hxz] Hxy. destruct (lt z y) eqn:Hzy; [done|].
  assert (le y x) as Hyx by (by apply (not_after_trans y z x)).
  unfold not_after in Hyx. congruence.
Qed.

Lemma merge_stable z l1 : ∀ l2,
  Sorted le l1 → Sorted le l2 →
  filter (eqv z) (merge lt l1 l2) = filter (eqv z) l1 ++ filter (eqv z) l2.
Proof.
  induction l1 as [|x1 l1 IH1]; intros l2 Hl1 Hl2.
  { by rewrite merge_nil_l. }
  induction l2 as [|x2 l2 IH2].
  { by rewrite merge_nil_r, app_nil_r. }
  rewrite merge_cons. destruct (lt x2 x1) eqn:Hlt.
  - rewrite !(filter_cons _ x2), IH2 by (by apply Sorted_inv in Hl2 as []).
    destruct (decide (eqv z x2)) as [Hz|]; [|done].
    apply Sorted_StronglySorted, StronglySorted_inv in Hl1 as [_ Hx1]; [|apply _].
    rewrite (filter_equiv_above z x1 (x1 :: l1)); [done|..].
    + by apply (equiv_lt_above z x2 x1).
    + constructor; [|done]. unfold not_after.
      destruct (lt x1 x1) eqn:E; [|done]. apply lt_asym in E as E'. congruence.
  - rewrite !(filter_cons _ x1), IH1 by (by apply Sorted_inv in Hl1 as []).
    by destruct (decide (eqv z x1)).
Qed.

#[local] Arguments merge : simpl never.

Lemma carry_into_Sorted tmp : ∀ carry,
  Forall (Sorted le) tmp → Sorted le carry →
  Forall (Sorted le) (carry_into lt tmp carry).
Proof.
  induction tmp as [|counter tmp IH]; intros carry Htmp Hcarry; simpl.
  { by repeat constructor. }
  apply Forall_cons in Htmp as [Hc Htmp].
  destruct counter as [|x counter]; [by constructor|].
  constructor; [constructor|]. apply IH; [done|]. by apply Sorted_merge.
Qed.

Lemma carry_into_Permutation tmp : ∀ carry,
  counters_contents (carry_into lt tmp carry) ≡ₚ
    counters_contents tmp ++ carry.
Proof.
  induction tmp as [|counter tmp IH]; intros carry; simpl; [done|].
  destruct counter as [|x counter]; simpl.
  { by rewrite !app_nil_r. }
  by rewrite IH, merge_Permutation, app_nil_r, (assoc (++)).
Qed.

Lemma carry_into_stable z tmp : ∀ carry,
  Forall (Sorted le) tmp → Sorted le carry →
  filter (eqv z) (counters_contents (carry_into lt tmp carry)) =
    filter (eqv z) (counters_contents tmp ++ carry).
Proof.
  induction tmp as [|counter tmp IH]; intros carry Htmp Hcarry; simpl; [done|].
  apply Forall_cons in Htmp as [Hc Htmp].
  destruct counter as [|x counter]; simpl.
  { by rewrite !app_nil_r. }
  rewrite app_nil_r, IH, !filter_app, merge_stable, (assoc (++));
    auto using Sorted_merge.
Qed.

Lemma fill_counters_Sorted l : ∀ tmp,
  Forall (Sorted le) tmp → Forall (Sorted le) (fill_counters lt tmp l).
Proof.
  induction l as [|x l IH]; intros tmp Htmp; simpl; [done|].
  apply IH, carry_into_Sorted; [done|]. by repeat constructor.
Qed.

Lemma fill_counters_Permutation l : ∀ tmp,
  counters_contents (fill_counters lt tmp l) ≡ₚ counters_contents tmp ++ l.
Proof.
  induction l as [|x l IH]; intros tmp; simpl.
  { by rewrite app_nil_r. }
  by rewrite IH, carry_into_Permutation, <-(assoc (++)).
Qed.

Lemma fill_counters_stable z l : ∀ tmp,
  Forall (Sorted le) tmp →
  filter (eqv z) (counters_contents (fill_counters lt tmp l)) =
    filter (eqv z) (counters_contents tmp ++ l).
Proof.
  induction l as [|x l IH]; intros tmp Htmp; simpl.
  { by rewrite app_nil_r. }
  rewrite IH by (apply carry_into_Sorted; [done|]; by repeat constructor).
  rewrite filter_app, carry_into_stable by (done || by repeat constructor).
  by rewrite <-filter_app, <-(assoc (++)).
Qed.

Lemma merge_counters_Sorted tmp : ∀ acc,
  Forall (Sorted le) tmp → Sorted le acc →
  Sorted le (merge_counters lt acc tmp).
Proof.
  induction tmp as [|counter tmp IH]; intros acc Htmp Hacc; simpl; [done|].
  apply Forall_cons in Htmp as [Hc Htmp]. apply IH; [done|].
  by apply Sorted_merge.
Qed.

Lemma merge_counters_Permutation tmp : ∀ acc,
  merge_counters lt acc tmp ≡ₚ counters_contents tmp ++ acc.
Proof.
  induction tmp as [|counter tmp IH]; intros acc; simpl; [done|].
  by rewrite IH, merge_Permutation, (assoc (++)).
Qed.

Lemma merge_counters_stable z tmp : ∀ acc,
  Forall (Sorted le) tmp → Sorted le acc →
  filter (eqv z) (merge_counters lt acc tmp) =
    filter (eqv z) (counters_contents tmp ++ acc).
Proof.
  induction tmp as [|counter tmp IH]; intros acc Htmp Hacc; simpl; [done|].
  apply Forall_cons in Htmp as [Hc Htmp].
  rewrite IH, !filter_app, merge_stable, (assoc (++));
    auto using Sorted_merge.
Qed.

Lemma list_sort_Sorted l : Sorted le (list_sort lt l).
Proof.
  apply merge_counters_Sorted; [|constructor].
  apply fill_counters_Sorted. constructor.
Qed.

Lemma list_sort_Permutation l : list_sort lt l ≡ₚ l.
Proof.
  unfold list_sort.
  by rewrite merge_counters_Permutation, app_nil_r, fill_counters_Permutation.
Qed.

Lemma list_sort_stable z l :
  filter (eqv z) (list_sort lt l) = filter (eqv z) l.
Proof.
  unfold list_sort.
  rewrite merge_counters_stable, app_nil_r, fill_counters_stable;
    try done; try constructor.
  apply fill_counters_Sorted. constructor.
Qed.

Lemma equiv_lt_refl x : eqv x x.
Proof.
  assert (lt x x = false); [|done].
  destruct (lt x x) eqn:E; [|done]. apply lt_asym in E as E'. congruence.
Qed.

Lemma Sorted_head_not_after x l y :
  Sorted le (x :: l) → y ∈ x :: l → le x y.
Proof.
  intros Hl Hy. apply Sorted_StronglySorted in Hl; [|apply _].
  apply StronglySorted_inv in Hl as [_ Hx].
  apply elem_of_cons in Hy as [->|Hy]; [apply equiv_lt_refl|].
  by apply (proj1 (Forall_forall _ _) Hx).
Qed.

(** A stable sort has one possible result: two sorted lists in which
    every class of equivalent elements appears in the same order are
    equal. *)
Lemma stable_sorted_unique l1 : ∀ l2,
  Sorted le l1 → Sorted le l2 →
  (∀ z, filter (eqv z) l1 = filter (eqv z) l2) → l1 = l2.
Proof.
  induction l1 as [|x l1 IH]; intros [|y l2] Hl1 Hl2 Heq; [done|..].
  - specialize (Heq y). rewrite filter_cons_True in Heq; [done|].
    apply equiv_lt_refl.
  - specialize (Heq x). rewrite filter_cons_True in Heq; [done|].
    apply equiv_lt_refl.
  - assert (x ∈ y :: l2) as Hx.
    { apply (list_elem_of_filter (eqv x)). rewrite <-Heq.
      rewrite filter_cons_True by apply equiv_lt_refl. left. }
    assert (y ∈ x :: l1) as Hy.
    { apply (list_elem_of_filter (eqv y)). rewrite Heq.
      rewrite filter_cons_True by apply equiv_lt_refl. left. }
    assert (eqv x y) as Hxy.
    { split; [by apply (Sorted_head_not_after y l2)
             |by apply (Sorted_head_not_after x l1)]. }
    assert (x = y) as <-.
    { specialize (Heq x).
      rewrite !filter_cons_True in Heq by (done || apply equiv_lt_refl).
      congruence. }
    f_equal. apply IH; [by apply Sorted_inv in Hl1 as []
                       |by apply Sorted_inv in Hl2 as []|].
    intros z. specialize (Heq z). rewrite !filter_cons in Heq.
    destruct (decide (eqv z x)); congruence.
Qed.
(** Hence the result of [list_sort] is the only list a stable sort for
    [lt] can return, whichever way it is computed. *)
Lemma list_sort_characterised l l' :
  Sorted le l' → (∀ z, filter (eqv z) l' = filter (eqv z) l) →
  l' = list_sort lt l.
Proof.
  intros Hsorted Hstable. apply stable_sorted_unique; [done|..].
  - apply list_sort_Sorted.
  - intros z. by rewrite Hstable, list_sort_stable.
Qed.
End ListSortFacts.

(** ** Searching and erasing in the inventory *)

Lemma pop_back_snoc {A} (l : list A) x : pop_back (l ++ [x]) = Some (l, x).
Proof. induction l as [|y l IH]; simpl; [done|]. by rewrite IH. Qed.

Lemma pop_back_None {A} (l : list A) : pop_back l = None ↔ l = [].
Proof.
  split; [|by intros ->]. destruct l as [|x l]; [done|]. simpl.
  by destruct (pop_back l) as [[??]|].
Qed.

Lemma pop_back_Some {A} (l r : list A) x :
  pop_back l = Some (r, x) ↔ l = r ++ [x].
Proof.
  split; [|intros ->; apply pop_back_snoc].
  destruct (decide (l = [])) as [->|Hne]; [done|].
  destruct (exists_last Hne) as (r' & x' & ->).
  rewrite pop_back_snoc. congruence.
Qed.

Lemma find_if_None n l : find_if n l = None ↔ sin_nombre n l.
Proof. apply list_find_None. Qed.

(** [find_if] returns the first product with the name, and erasing at the
    position it returns removes exactly that product. *)
Lemma find_if_Some n l it p :
  find_if n l = Some (it, p) ↔
  ∃ l1 l2, l = l1 ++ p :: l2 ∧ it = length l1 ∧ nombre p = n ∧ sin_nombre n l1.
Proof.
  unfold find_if. rewrite list_find_Some. split.
  - intros (Hit & Hp & Hbefore).
    exists (take it l), (drop (S it) l). split_and!.
    + by rewrite <-(take_drop_middle l it p) at 1.
    + rewrite length_take. apply lookup_lt_Some in Hit. lia.
    + done.
    + apply Forall_forall. intros q Hq.
      apply list_elem_of_lookup in Hq as [j Hj].
      apply lookup_take_Some in Hj as [Hj Hlt]. eauto.
  - intros (l1 & l2 & -> & -> & Hp & Hl1). split_and!.
    + by rewrite list_lookup_middle.
    + done.
    + intros j q Hj Hlt. rewrite lookup_app_l in Hj by done.
      apply (proj1 (Forall_forall _ _) Hl1). by eapply list_elem_of_lookup_2.
Qed.

Lemma delete_middle {A} (l1 l2 : list A) x :
  delete (length l1) (l1 ++ x :: l2) = l1 ++ l2.
Proof. induction l1 as [|y l1 IH]; simpl; [done|]. by rewrite IH. Qed.

Lemma find_if_snoc n l p :
  nombre p = n →
  find_if n (l ++ [p]) =
    match find_if n l with
    | Some r => Some r
    | None => Some (length l, p)
    end.
Proof.
  intros Hp. unfold find_if.
  destruct (list_find _ l) as [[it q]|] eqn:Hl.
  - by apply list_find_app_l.
  - rewrite list_find_app_r by done. simpl.
    rewrite decide_True by done. simpl. by rewrite ?Nat.add_0_r.
Qed.

Lemma length_delete_find_if n l it p :
  find_if n l = Some (it, p) → S (length (delete it l)) = length l.
Proof.
  intros (l1 & l2 & -> & -> & _)%find_if_Some.
  rewrite delete_middle, !length_app. simpl. lia.
Qed.

(** ** Registration, deletion and undo *)

(** C6: [registrarProducto] has no failure branch: in every state it puts
    [p] at the end of the inventory and the entry ["agregar", p] at the end
    of the history, touches neither queue and prints its confirmation; the
    inventory and the history each grow by exactly one element, and the
    listing shows one product more. *)
Theorem C6_registrarProducto_appends (s : SistemaGestion) (p : Producto) :
  let s' := (registrarProducto p s).1 in
  inventario s' = inventario s ++ [p] ∧
  historialCambios s' = historialCambios s ++ [mkCambio "agregar" p] ∧
  solicitudes s' = solicitudes s ∧
  clientesEnEspera s' = clientesEnEspera s ∧
  (registrarProducto p s).2
    = [Texto "Producto agregado: "; Texto (nombre p); Endl] ∧
  length (inventario s') = length (inventario s) + 1 ∧
  length (historialCambios s') = length (historialCambios s) + 1 ∧
  length (inventario (listarProductos s').1)
    = length (inventario (listarProductos s).1) + 1.
Proof.
  simpl. split_and!; try done.
  - rewrite length_app. simpl. lia.
  - rewrite length_app. simpl. lia.
  - rewrite !list_sort_Permutation, length_app. simpl. lia.
Qed.

(** C7: when no product of the inventory has the name, [eliminarProducto]
    prints "Producto no encontrado." and returns the state it was given:
    the inventory, both queues and the history are the same lists. *)
Theorem C7_eliminarProducto_not_found (s : SistemaGestion) (n : string) :
  sin_nombre n (inventario s) →
  eliminarProducto n s = (s, [Texto "Producto no encontrado."; Endl]).
Proof.
  intros Hn. unfold eliminarProducto.
  by rewrite (proj2 (find_if_None n (inventario s)) Hn).
Qed.

Lemma C7_eliminarProducto_not_found_witness :
  sin_nombre "Widget" (inventario almacen) ∧
  eliminarProducto "Widget" almacen
    = (almacen, [Texto "Producto no encontrado."; Endl]).
Proof.
  assert (sin_nombre "Widget" (inventario almacen)) as Hn.
  { unfold sin_nombre. repeat (constructor; [discriminate|]). constructor. }
  exact (conj Hn (C7_eliminarProducto_not_found almacen "Widget" Hn)).
Defined.


(** C5: with an empty history, [deshacerUltimaAccion] prints
    "No hay cambios para deshacer." and returns the state it was given. *)
Theorem C5_deshacer_empty_history (s : SistemaGestion) :
  historialCambios s = [] →
  deshacerUltimaAccion s = (s, [Texto "No hay cambios para deshacer."; Endl]).
Proof. intros Hh. unfold deshacerUltimaAccion. by rewrite Hh. Qed.

Lemma C5_deshacer_empty_history_witness :
  historialCambios (mkSistema [apple] [] [] []) = [] ∧
  deshacerUltimaAccion (mkSistema [apple] [] [] [])
    = (mkSistema [apple] [] [] [],
       [Texto "No hay cambios para deshacer."; Endl]).
Proof.
  exact (conj eq_refl
           (C5_deshacer_empty_history (mkSistema [apple] [] [] []) eq_refl)).
Defined.


(** C4: when the most recent entry [E] of the history is an ["agregar"]
    entry, [deshacerUltimaAccion] drops that entry and either erases the
    first product of the inventory named like [E]'s product, or, when no
    product has that name, changes nothing else and prints nothing; both
    queues are kept in either case. *)
Theorem C4_deshacer_agregar
  (s : SistemaGestion) (historial : list Cambio) (E : Cambio) :
  historialCambios s = historial ++ [E] →
  tipo E = "agregar" →
  let n := nombre (producto E) in
  (∃ l1 q l2,
     inventario s = l1 ++ q :: l2 ∧ sin_nombre n l1 ∧ nombre q = n ∧
     deshacerUltimaAccion s =
       (mkSistema (l1 ++ l2) (solicitudes s) (clientesEnEspera s) historial,
        [Texto "Deshacer: Producto agregado eliminado: "; Texto n; Endl])) ∨
  (sin_nombre n (inventario s) ∧
   deshacerUltimaAccion s =
     (mkSistema (inventario s) (solicitudes s) (clientesEnEspera s) historial,
      [])).
Proof.
  intros Hh HE n. unfold deshacerUltimaAccion.
  rewrite Hh, pop_back_snoc, HE. simpl.
  destruct (find_if _ (inventario s)) as [[it q]|] eqn:Hfind.
  - left. apply find_if_Some in Hfind as (l1 & l2 & Hinv & -> & Hq & Hl1).
    exists l1, q, l2. rewrite Hinv at 2. by rewrite delete_middle.
  - right. by apply find_if_None in Hfind.
Qed.

(** The entry of [apple_caro] is undone by erasing [apple], the first
    product with that name. *)
Lemma C4_deshacer_agregar_witness :
  historialCambios almacen
    = [mkCambio "agregar" banana; mkCambio "agregar" apple]
      ++ [mkCambio "agregar" apple_caro] ∧
  tipo (mkCambio "agregar" apple_caro) = "agregar" ∧
  ((∃ l1 q l2,
      inventario almacen = l1 ++ q :: l2 ∧ sin_nombre "Apple" l1 ∧
      nombre q = "Apple" ∧
      deshacerUltimaAccion almacen =
        (mkSistema (l1 ++ l2) (solicitudes almacen) (clientesEnEspera almacen)
           [mkCambio "agregar" banana; mkCambio "agregar" apple],
         [Texto "Deshacer: Producto agregado eliminado: "; Texto "Apple";
          Endl])) ∨
   (sin_nombre "Apple" (inventario almacen) ∧
    deshacerUltimaAccion almacen =
      (mkSistema (inventario almacen) (solicitudes almacen)
         (clientesEnEspera almacen)
         [mkCambio "agregar" banana; mkCambio "agregar" apple],
       []))).
Proof.
  exact (conj eq_refl (conj eq_refl
           (C4_deshacer_agregar almacen
              [mkCambio "agregar" banana; mkCambio "agregar" apple]
              (mkCambio "agregar" apple_caro) eq_refl eq_refl))).
Defined.


(** C1: [registrarProducto p] followed by [deshacerUltimaAccion] erases
    the first product named like [p] from the inventory that holds [p] at
    its end, so the inventory has again as many products as before the
    registration (and is the same list when no earlier product was named
    like [p]); the history is again the list it was before, the
    ["agregar"] entry being gone; both queues are kept. *)
Theorem C1_registrar_deshacer (s : SistemaGestion) (p : Producto) :
  let s1 := (registrarProducto p s).1 in
  let s2 := (deshacerUltimaAccion s1).1 in
  (∃ l1 q l2,
     inventario s1 = l1 ++ q :: l2 ∧ sin_nombre (nombre p) l1 ∧
     nombre q = nombre p ∧ inventario s2 = l1 ++ l2) ∧
  inventario s2 =
    match find_if (nombre p) (inventario s) with
    | Some (it, _) => delete it (inventario s) ++ [p]
    | None => inventario s
    end ∧
  length (inventario s2) = length (inventario s) ∧
  historialCambios s2 = historialCambios s ∧
  solicitudes s2 = solicitudes s ∧
  clientesEnEspera s2 = clientesEnEspera s ∧
  (deshacerUltimaAccion s1).2
    = [Texto "Deshacer: Producto agregado eliminado: "; Texto (nombre p);
       Endl].
Proof.
  intros s1 s2. subst s1 s2. unfold deshacerUltimaAccion. simpl.
  rewrite pop_back_snoc. simpl.
  pose proof (find_if_snoc (nombre p) (inventario s) p eq_refl) as Hsnoc.
  destruct (find_if (nombre p) (inventario s ++ [p])) as [[it q]|] eqn:Hfind;
    [|by destruct (find_if (nombre p) (inventario s))].
  simpl. split_and!; try done.
  - apply find_if_Some in Hfind as (l1 & l2 & Hinv & -> & Hq & Hl1).
    exists l1, q, l2. by rewrite Hinv, delete_middle.
  - destruct (find_if (nombre p) (inventario s)) as [[it' q']|] eqn:Hs.
    + injection Hsnoc as -> ->.
      apply find_if_Some in Hs as (l1 & l2 & -> & -> & _).
      rewrite <-app_assoc. simpl. by rewrite !delete_middle, app_assoc.
    + injection Hsnoc as -> ->.
      by rewrite (delete_middle (inventario s) [] p), app_nil_r.
  - apply length_delete_find_if in Hfind.
    rewrite length_app in Hfind. simpl in Hfind. lia.
Qed.

(** C2: when some product of the inventory has the name,
    [eliminarProducto] followed by [deshacerUltimaAccion] takes the first
    product [q] with that name out of its place and puts the same record
    (name, price and quantity) back at the end of the inventory, without
    looking for products of the same name: the inventory holds the same
    products as before, as many in total and as many with that name; the
    history is again the list it was before; both queues are kept. *)
Theorem C2_eliminar_deshacer (s : SistemaGestion) (n : string) :
  (∃ p, p ∈ inventario s ∧ nombre p = n) →
  let s1 := (eliminarProducto n s).1 in
  let s2 := (deshacerUltimaAccion s1).1 in
  ∃ l1 q l2,
    inventario s = l1 ++ q :: l2 ∧ sin_nombre n l1 ∧ nombre q = n ∧
    inventario s1 = l1 ++ l2 ∧
    inventario s2 = l1 ++ l2 ++ [q] ∧
    inventario s2 ≡ₚ inventario s ∧
    length (inventario s2) = length (inventario s) ∧
    length (llamados n (inventario s2)) = length (llamados n (inventario s)) ∧
    historialCambios s2 = historialCambios s ∧
    solicitudes s2 = solicitudes s ∧
    clientesEnEspera s2 = clientesEnEspera s ∧
    (eliminarProducto n s).2
      = [Texto "Producto eliminado: "; Texto n; Endl] ∧
    (deshacerUltimaAccion s1).2
      = [Texto "Deshacer: Producto eliminado restaurado: "; Texto n; Endl].
Proof.
  intros (p & Hp & Hn) s1 s2. subst s1 s2. unfold eliminarProducto.
  destruct (find_if n (inventario s)) as [[it q]|] eqn:Hfind.
  2:{ apply find_if_None in Hfind.
      by apply (proj1 (Forall_forall _ _) Hfind) in Hp. }
  apply find_if_Some in Hfind as (l1 & l2 & Hinv & -> & Hq & Hl1).
  exists l1, q, l2. unfold deshacerUltimaAccion. simpl.
  rewrite pop_back_snoc. simpl. rewrite Hinv, delete_middle, Hq.
  assert (l1 ++ l2 ++ [q] ≡ₚ l1 ++ q :: l2) as Hperm.
  { f_equiv. symmetry. apply Permutation_cons_append. }
  split_and!; try done.
  - by rewrite app_assoc.
  - by rewrite <-app_assoc.
  - by rewrite <-app_assoc, Hperm.
  - unfold llamados. by rewrite <-app_assoc, Hperm.
Qed.

Lemma C2_eliminar_deshacer_witness :
  (∃ p, p ∈ inventario almacen ∧ nombre p = "Apple") ∧
  ∃ l1 q l2,
    inventario almacen = l1 ++ q :: l2 ∧ sin_nombre "Apple" l1 ∧
    nombre q = "Apple" ∧
    inventario (eliminarProducto "Apple" almacen).1 = l1 ++ l2 ∧
    inventario (deshacerUltimaAccion (eliminarProducto "Apple" almacen).1).1
      = l1 ++ l2 ++ [q] ∧
    inventario (deshacerUltimaAccion (eliminarProducto "Apple" almacen).1).1
      ≡ₚ inventario almacen ∧
    length
      (inventario (deshacerUltimaAccion (eliminarProducto "Apple" almacen).1).1)
      = length (inventario almacen) ∧
    length
      (llamados "Apple"
         (inventario
            (deshacerUltimaAccion (eliminarProducto "Apple" almacen).1).1))
      = length (llamados "Apple" (inventario almacen)) ∧
    historialCambios
      (deshacerUltimaAccion (eliminarProducto "Apple" almacen).1).1
      = historialCambios almacen ∧
    solicitudes (deshacerUltimaAccion (eliminarProducto "Apple" almacen).1).1
      = solicitudes almacen ∧
    clientesEnEspera
      (deshacerUltimaAccion (eliminarProducto "Apple" almacen).1).1
      = clientesEnEspera almacen ∧
    (eliminarProducto "Apple" almacen).2
      = [Texto "Producto eliminado: "; Texto "Apple"; Endl] ∧
    (deshacerUltimaAccion (eliminarProducto "Apple" almacen).1).2
      = [Texto "Deshacer: Producto eliminado restaurado: "; Texto "Apple";
         Endl].
Proof.
  assert (∃ p, p ∈ inventario almacen ∧ nombre p = "Apple") as Hp.
  { exists apple_caro. split; [|done].
    apply list_elem_of_further, list_elem_of_further, list_elem_of_here. }
  exact (conj Hp (C2_eliminar_deshacer almacen "Apple" Hp)).
Defined.


(** ** The comparison of [listarProductos] *)

Lemma comp_asym a b : comp a b = true → comp b a = false.
Proof.
  unfold comp. rewrite (string_ltb_leb (nombre a) (nombre b)).
  unfold String.ltb, String.leb.
  by destruct (String.compare (nombre a) (nombre b)).
Qed.

Lemma not_after_comp a b : not_after comp a b ↔ nombre_le a b.
Proof.
  unfold not_after, nombre_le, comp. rewrite string_ltb_leb.
  by destruct (String.leb (nombre a) (nombre b)).
Qed.

Lemma not_after_comp_trans a b c :
  not_after comp a b → not_after comp b c → not_after comp a c.
Proof. rewrite !not_after_comp. apply string_leb_trans. Qed.

Lemma equiv_lt_comp a b : equiv_lt comp a b ↔ nombre a = nombre b.
Proof.
  change (not_after comp b a ∧ not_after comp a b ↔ nombre a = nombre b).
  rewrite !not_after_comp. unfold nombre_le. split.
  - intros [Hba Hab]. by apply String.leb_antisym.
  - intros ->. by destruct (String.leb_total (nombre b) (nombre b)).
Qed.

Lemma Sorted_not_after_comp l : Sorted (not_after comp) l → Sorted nombre_le l.
Proof.
  induction 1 as [|x l _ IH Hhd]; constructor; [done|].
  destruct Hhd; constructor. by apply not_after_comp.
Qed.

Lemma list_sort_comp_Sorted l : Sorted nombre_le (list_sort comp l).
Proof.
  apply Sorted_not_after_comp, list_sort_Sorted.
  intros x y. apply comp_asym.
Qed.

Lemma list_sort_comp_llamados n l :
  llamados n (list_sort comp l) = llamados n l.
Proof.
  unfold llamados. set (z := mkProducto n (S754_zero false) 0).
  rewrite <-!(list_filter_iff (equiv_lt comp z) (λ p, nombre p = n))
    by (intros p; rewrite equiv_lt_comp; simpl; naive_solver).
  apply list_sort_stable; [apply comp_asym|apply not_after_comp_trans].
Qed.

(** In every state, [listarProductos] stores the inventory sorted by name
    and prints one line per product in that order; the sort is stable and
    keeps the products. *)
Lemma listarProductos_sorted (s : SistemaGestion) :
  let s' := (listarProductos s).1 in
  Sorted nombre_le (inventario s') ∧
  inventario s' ≡ₚ inventario s ∧
  (∀ n, llamados n (inventario s') = llamados n (inventario s)) ∧
  (listarProductos s).2 = concat (map linea_producto (inventario s')) ∧
  solicitudes s' = solicitudes s ∧
  clientesEnEspera s' = clientesEnEspera s ∧
  historialCambios s' = historialCambios s.
Proof.
  simpl. split_and!; try done.
  - apply list_sort_comp_Sorted.
  - apply list_sort_Permutation.
  - intros n. apply list_sort_comp_llamados.
Qed.

(** C8: after any session that only registers and deletes products,
    [listarProductos] sorts the stored inventory in place: the inventory
    it leaves is in non-decreasing name order for the character-code order
    of [std::string], holds the same products, keeps the products of equal
    name in the order they had (stability), and the lines printed are
    those of the stored inventory, in its order. *)
Theorem C8_listarProductos_sorted (ops : list Opcion) :
  Forall alta_o_baja ops →
  let s := sesion ops sistema_inicial in
  let s' := (listarProductos s).1 in
  Sorted nombre_le (inventario s') ∧
  inventario s' ≡ₚ inventario s ∧
  (∀ n, llamados n (inventario s') = llamados n (inventario s)) ∧
  (listarProductos s).2
    = concat (map (λ p, [Texto "Producto: "; Texto (nombre p); Texto ", Precio: ";
                       Real (precio p); Texto ", Cantidad: ";
                       Entero (cantidad p); Endl])
                (inventario s')) ∧
  solicitudes s' = solicitudes s ∧
  clientesEnEspera s' = clientesEnEspera s ∧
  historialCambios s' = historialCambios s.
Proof. intros _ s. apply listarProductos_sorted. Qed.

(** After [altas_y_baja] the inventory is [banana; apple; apple_caro]:
    the listing stores and prints [apple; apple_caro; banana]. *)
Lemma C8_listarProductos_sorted_witness :
  Forall alta_o_baja altas_y_baja ∧
  Sorted nombre_le [apple; apple_caro; banana] ∧
  [apple; apple_caro; banana] ≡ₚ [banana; apple; apple_caro] ∧
  (∀ n, llamados n [apple; apple_caro; banana]
        = llamados n [banana; apple; apple_caro]) ∧
  (listarProductos (sesion altas_y_baja sistema_inicial)).2
    = [Texto "Producto: "; Texto "Apple"; Texto ", Precio: ";
       Real (S754_finite false 1 0); Texto ", Cantidad: "; Entero 1; Endl;
       Texto "Producto: "; Texto "Apple"; Texto ", Precio: ";
       Real (S754_finite false 3 0); Texto ", Cantidad: "; Entero 7; Endl;
       Texto "Producto: "; Texto "Banana"; Texto ", Precio: ";
       Real (S754_finite false 1 1); Texto ", Cantidad: "; Entero 1; Endl] ∧
  solicitudes (listarProductos (sesion altas_y_baja sistema_inicial)).1
    = [] ∧
  clientesEnEspera (listarProductos (sesion altas_y_baja sistema_inicial)).1
    = [] ∧
  historialCambios (listarProductos (sesion altas_y_baja sistema_inicial)).1
    = [mkCambio "agregar" widget; mkCambio "agregar" banana;
       mkCambio "agregar" apple; mkCambio "agregar" apple_caro;
       mkCambio "eliminar" widget].
Proof.
  assert (Forall alta_o_baja altas_y_baja) as Hops.
  { repeat constructor. }
  exact (conj Hops (C8_listarProductos_sorted altas_y_baja Hops)).
Defined.


(** ** The history *)

Lemma sesion_snoc ops op s :
  sesion (ops ++ [op]) s = (ejecutar op (sesion ops s)).1.
Proof. unfold sesion. by rewrite foldl_snoc. Qed.

Lemma historial_ejecutar op s :
  historialCambios (ejecutar op s).1 = historial_esperado op s.
Proof.
  destruct op; cbn [ejecutar historial_esperado]; try done.
  - unfold eliminarProducto.
    by destruct (find_if _ (inventario s)) as [[it q]|].
  - unfold consultarProducto.
    by destruct (find_if _ (inventario s)) as [[it q]|].
  - unfold procesarSolicitud. by destruct (solicitudes s).
  - unfold consultarSolicitudEnProceso. by destruct (solicitudes s).
  - unfold atenderCliente. by destruct (clientesEnEspera s).
  - unfold deshacerUltimaAccion.
    destruct (pop_back (historialCambios s)) as [[r c]|] eqn:Hpop.
    + apply pop_back_Some in Hpop. rewrite Hpop, removelast_last.
      destruct (String.eqb _ _); [|by destruct (String.eqb _ _)].
      by destruct (find_if _ _) as [[it q]|].
    + apply pop_back_None in Hpop. by rewrite Hpop.
Qed.

Lemma origen_snoc ops op c : origen ops c → origen (ops ++ [op]) c.
Proof.
  intros [[Ht (pre & post & ->)]|[Ht (pre & n & post & it & -> & Hfind)]].
  - left. split; [done|]. exists pre, (post ++ [op]).
    by rewrite <-app_assoc.
  - right. split; [done|]. exists pre, n, (post ++ [op]), it.
    by rewrite <-app_assoc.
Qed.

Lemma Forall_removelast {A} (P : A → Prop) l :
  Forall P l → Forall P (removelast l).
Proof.
  destruct (decide (l = [])) as [->|Hne]; [done|].
  destruct (exists_last Hne) as (r & x & ->).
  rewrite removelast_last. by intros [? _]%Forall_app.
Qed.

Lemma historial_origen ops :
  Forall (origen ops) (historialCambios (sesion ops sistema_inicial)).
Proof.
  induction ops as [|op ops IH] using rev_ind; [by constructor|].
  rewrite sesion_snoc, historial_ejecutar.
  assert (Forall (origen (ops ++ [op]))
            (historialCambios (sesion ops sistema_inicial))) as IH'.
  { eapply Forall_impl; [exact IH|]. intros c. apply origen_snoc. }
  destruct op; simpl; try done.
  - apply Forall_app. split; [done|]. apply Forall_singleton.
    left. split; [done|]. by exists ops, [].
  - destruct (find_if _ _) as [[it q]|] eqn:Hfind; [|done].
    apply Forall_app. split; [done|]. apply Forall_singleton.
    right. split; [done|]. by exists ops, nombreProducto, [], it.
  - by apply Forall_removelast.
Qed.

(** C3: in the state reached from the initial state by any sequence of
    menu entries, every entry of the history has [tipo] ["agregar"] or
    ["eliminar"]; an ["agregar"] entry stems from a registration of its
    product and an ["eliminar"] entry from a deletion that found its
    product; and one more menu entry changes the history only by appending
    one entry (registration, or deletion that finds the product) or by
    removing the most recent entry (undo). *)
Theorem C3_historial_invariant (ops : list Opcion) :
  let s := sesion ops sistema_inicial in
  Forall (λ c, tipo c = "agregar" ∨ tipo c = "eliminar") (historialCambios s) ∧
  Forall (origen ops) (historialCambios s) ∧
  ∀ op, historialCambios (ejecutar op s).1 = historial_esperado op s.
Proof.
  intros s. split_and!.
  - eapply Forall_impl; [apply historial_origen|].
    intros c [[? _]|[? _]]; auto.
  - apply historial_origen.
  - intros op. apply historial_ejecutar.
Qed.

(** ** The queues *)

(** C9: on a state whose request queue is empty, [procesarSolicitud]
    prints "No hay solicitudes pendientes." and returns the state it was
    given; on a queue [r :: resto] it prints the description of [r] and
    leaves [resto], one request less, with the other three lists kept;
    and after [registrarSolicitud A] and [registrarSolicitud B] on an empty
    queue it processes [A] and leaves [B] alone in the queue (on a queue
    that still holds [r :: resto] it processes [r], and [A] stays ahead of
    [B]). *)
Theorem C9_procesarSolicitud_fifo
  (inv : list Producto) (cli : list Cliente) (hist : list Cambio)
  (r : Solicitud) (resto : list Solicitud) (A B : Solicitud) :
  let vacia := mkSistema inv [] cli hist in
  let llena := mkSistema inv (r :: resto) cli hist in
  procesarSolicitud vacia
    = (vacia, [Texto "No hay solicitudes pendientes."; Endl]) ∧
  procesarSolicitud llena
    = (mkSistema inv resto cli hist,
       [Texto "Procesando solicitud: "; Texto (descripcion r); Endl]) ∧
  length (solicitudes (procesarSolicitud llena).1) + 1
    = length (solicitudes llena) ∧
  procesarSolicitud (registrarSolicitud B (registrarSolicitud A vacia).1).1
    = (mkSistema inv [B] cli hist,
       [Texto "Procesando solicitud: "; Texto (descripcion A); Endl]) ∧
  procesarSolicitud (registrarSolicitud B (registrarSolicitud A llena).1).1
    = (mkSistema inv (resto ++ [A; B]) cli hist,
       [Texto "Procesando solicitud: "; Texto (descripcion r); Endl]).
Proof.
  simpl. split_and!; try done; [lia|].
  unfold procesarSolicitud. simpl. by rewrite <-app_assoc.
Qed.

(** C10: the menu entries for requests and for clients keep the inventory
    and the history (and the queue of the other kind); the menu entries for
    products and the undo keep both queues; [atenderCliente] on an empty
    waiting list returns the state it was given. *)
Theorem C10_frame (op : Opcion) (s : SistemaGestion) :
  let s' := (ejecutar op s).1 in
  match op with
  | RegistrarSolicitud _ | ProcesarSolicitud | ConsultarSolicitudEnProceso
  | ListarSolicitudesPendientes =>
      inventario s' = inventario s ∧
      historialCambios s' = historialCambios s ∧
      clientesEnEspera s' = clientesEnEspera s
  | RegistrarClienteEnEspera _ | AtenderCliente | ConsultarListaDeEspera =>
      inventario s' = inventario s ∧
      historialCambios s' = historialCambios s ∧
      solicitudes s' = solicitudes s
  | RegistrarProducto _ | EliminarProducto _ | ConsultarProducto _
  | ListarProductos | DeshacerUltimaAccion =>
      solicitudes s' = solicitudes s ∧
      clientesEnEspera s' = clientesEnEspera s
  end ∧
  atenderCliente
    (mkSistema (inventario s) (solicitudes s) [] (historialCambios s))
    = (mkSistema (inventario s) (solicitudes s) [] (historialCambios s),
       [Texto "No hay clientes en espera."; Endl]).
Proof.
  split; [|done]. destruct op; cbn [ejecutar]; try done.
  - unfold eliminarProducto. by destruct (find_if _ _) as [[??]|].
  - unfold consultarProducto. by destruct (find_if _ _) as [[??]|].
  - unfold procesarSolicitud. by destruct (solicitudes s).
  - unfold consultarSolicitudEnProceso. by destruct (solicitudes s).
  - unfold atenderCliente. by destruct (clientesEnEspera s).
  - unfold deshacerUltimaAccion.
    destruct (pop_back _) as [[r c]|]; [|done].
    destruct (String.eqb _ _); [|by destruct (String.eqb _ _)].
    by destruct (find_if _ _) as [[??]|].
Qed.

(** ** Sample sessions *)

(** Register "Widget", delete it, undo: the listing shows it again. *)
Example sesion_widget :
  let s := sesion [RegistrarProducto widget; EliminarProducto "Widget"]
             sistema_inicial in
  (listarProductos s).2 = [] ∧
  listarProductos (deshacerUltimaAccion s).1
    = (mkSistema [widget] [] [] [mkCambio "agregar" widget],
       linea_producto widget).
Proof. by vm_compute. Qed.

(** Register "Apple" and "Banana", undo: only "Apple" remains. *)
Example sesion_apple_banana :
  inventario
    (sesion [RegistrarProducto apple; RegistrarProducto banana;
             DeshacerUltimaAccion] sistema_inicial)
    = [apple].
Proof. by vm_compute. Qed.

(** The state [almacen] is the one the menu reaches. *)
Example sesion_almacen :
  sesion (altas ++ [RegistrarSolicitud (mkSolicitud 0 "dos cajas");
                    RegistrarClienteEnEspera (mkCliente 0 "Ana")])
    sistema_inicial
    = almacen.
Proof. by vm_compute. Qed.

(** The sort is stable and compares character codes: an upper-case
    letter comes before every lower-case one. *)
Example list_sort_ejemplo :
  list_sort comp
    [banana; apple_caro; mkProducto "apple" (S754_zero false) 0; widget; apple]
    = [apple_caro; apple; banana; widget;
       mkProducto "apple" (S754_zero false) 0].
Proof. by vm_compute. Qed.

(** ** Queries *)

Lemma find_if_head n l :
  snd <$> find_if n l = head (llamados n l).
Proof.
  unfold find_if, llamados. induction l as [|x l IH]; [done|].
  simpl. rewrite filter_cons. destruct (decide (nombre x = n)); [done|].
  rewrite <-IH. by destruct (list_find _ l) as [[??]|].
Qed.

(** [consultarProducto] never changes the state; it prints the line of
    the first product of the inventory with the name, whatever other
    products share that name, and "Producto no encontrado." when no product
    has it. *)
Theorem consultarProducto_first_match (s : SistemaGestion) (n : string) :
  (consultarProducto n s).1 = s ∧
  ((∃ l1 q l2,
      inventario s = l1 ++ q :: l2 ∧ sin_nombre n l1 ∧ nombre q = n ∧
      (consultarProducto n s).2
        = [Texto "Producto: "; Texto (nombre q); Texto ", Precio: ";
          Real (precio q); Texto ", Cantidad: "; Entero (cantidad q); Endl]) ∨
   (sin_nombre n (inventario s) ∧
    (consultarProducto n s).2 = [Texto "Producto no encontrado."; Endl])).
Proof.
  unfold consultarProducto.
  destruct (find_if n (inventario s)) as [[it q]|] eqn:Hfind.
  - split; [done|]. left.
    apply find_if_Some in Hfind as (l1 & l2 & Hinv & _ & Hq & Hl1).
    by exists l1, q, l2.
  - split; [done|]. right. by apply find_if_None in Hfind.
Qed.

(** A query for the name of a product just registered shows that product
    when no product had the name before, and otherwise still shows the
    older product with that name: a duplicate is stored but never seen by
    a query. *)
Theorem consultar_tras_registrar (s : SistemaGestion) (p : Producto) :
  (consultarProducto (nombre p) (registrarProducto p s).1).2 =
    match find_if (nombre p) (inventario s) with
    | Some (_, q) =>
        [Texto "Producto: "; Texto (nombre q); Texto ", Precio: ";
         Real (precio q); Texto ", Cantidad: "; Entero (cantidad q); Endl]
    | None =>
        [Texto "Producto: "; Texto (nombre p); Texto ", Precio: ";
         Real (precio p); Texto ", Cantidad: "; Entero (cantidad p); Endl]
    end.
Proof.
  unfold consultarProducto. simpl.
  rewrite (find_if_snoc (nombre p) (inventario s) p eq_refl).
  by destruct (find_if (nombre p) (inventario s)) as [[it q]|].
Qed.

(** When a product has the name, [eliminarProducto] erases the first such
    product and no other: the products before and after it keep their
    order, there is exactly one product less with that name and as many as
    before with any other name, a copy of the erased product is the new
    last entry of the history, and both queues are kept. *)
Theorem eliminarProducto_found (s : SistemaGestion) (n : string) :
  (∃ p, p ∈ inventario s ∧ nombre p = n) →
  ∃ l1 q l2,
    inventario s = l1 ++ q :: l2 ∧ sin_nombre n l1 ∧ nombre q = n ∧
    eliminarProducto n s =
      (mkSistema (l1 ++ l2) (solicitudes s) (clientesEnEspera s)
         (historialCambios s ++ [mkCambio "eliminar" q]),
       [Texto "Producto eliminado: "; Texto n; Endl]) ∧
    llamados n (inventario s) = q :: llamados n (l1 ++ l2) ∧
    ∀ m, m ≠ n → llamados m (l1 ++ l2) = llamados m (inventario s).
Proof.
  intros (p & Hp & Hn). unfold eliminarProducto.
  destruct (find_if n (inventario s)) as [[it q]|] eqn:Hfind.
  2:{ apply find_if_None in Hfind.
      by apply (proj1 (Forall_forall _ _) Hfind) in Hp. }
  apply find_if_Some in Hfind as (l1 & l2 & Hinv & -> & Hq & Hl1).
  exists l1, q, l2. rewrite Hinv, delete_middle.
  assert (llamados n l1 = []) as Hnil.
  { unfold llamados. clear -Hl1. induction Hl1 as [|x l Hx _ IH]; [done|].
    by rewrite filter_cons_False. }
  split_and!; try done.
  - unfold llamados in *. rewrite !filter_app, Hnil. simpl.
    by rewrite filter_cons_True.
  - intros m Hm. unfold llamados. rewrite !filter_app.
    rewrite (filter_cons_False _ q); [done|]. congruence.
Qed.

Lemma eliminarProducto_found_witness :
  (∃ p, p ∈ inventario almacen ∧ nombre p = "Apple") ∧
  ∃ l1 q l2,
    inventario almacen = l1 ++ q :: l2 ∧ sin_nombre "Apple" l1 ∧
    nombre q = "Apple" ∧
    eliminarProducto "Apple" almacen =
      (mkSistema (l1 ++ l2) (solicitudes almacen) (clientesEnEspera almacen)
         (historialCambios almacen ++ [mkCambio "eliminar" q]),
       [Texto "Producto eliminado: "; Texto "Apple"; Endl]) ∧
    llamados "Apple" (inventario almacen) = q :: llamados "Apple" (l1 ++ l2) ∧
    ∀ m, m ≠ "Apple" → llamados m (l1 ++ l2) = llamados m (inventario almacen).
Proof.
  assert (∃ p, p ∈ inventario almacen ∧ nombre p = "Apple") as Hp.
  { exists apple. split; [|done].
    apply list_elem_of_further, list_elem_of_here. }
  exact (conj Hp (eliminarProducto_found almacen "Apple" Hp)).
Defined.


(** After a deletion, a query for the same name finds the next product
    with that name, and reports "Producto no encontrado." when the erased
    product was the only one. *)
Theorem consultar_tras_eliminar
  (s : SistemaGestion) (n : string) (l1 l2 : list Producto) (q : Producto) :
  inventario s = l1 ++ q :: l2 → sin_nombre n l1 → nombre q = n →
  (consultarProducto n (eliminarProducto n s).1).2 =
    match find_if n l2 with
    | Some (_, q') =>
        [Texto "Producto: "; Texto (nombre q'); Texto ", Precio: ";
         Real (precio q'); Texto ", Cantidad: "; Entero (cantidad q'); Endl]
    | None => [Texto "Producto no encontrado."; Endl]
    end.
Proof.
  intros Hinv Hl1 Hq.
  assert (find_if n (inventario s) = Some (length l1, q)) as Hfind.
  { apply find_if_Some. by exists l1, l2. }
  unfold eliminarProducto. rewrite Hfind. unfold consultarProducto. simpl.
  rewrite Hinv, delete_middle.
  assert (snd <$> find_if n (l1 ++ l2) = snd <$> find_if n l2) as Hsame.
  { rewrite !find_if_head. unfold llamados. rewrite filter_app.
    replace (filter _ l1) with (@nil Producto); [done|].
    clear -Hl1. induction Hl1 as [|x l Hx _ IH]; [done|].
    by rewrite filter_cons_False. }
  revert Hsame.
  destruct (find_if n (l1 ++ l2)) as [[i1 q1]|],
           (find_if n l2) as [[i2 q2]|]; simpl; intros Hsame; try done.
  by injection Hsame as ->.
Qed.

(** With [apple] erased, the query finds [apple_caro]. *)
Lemma consultar_tras_eliminar_witness :
  inventario almacen = [banana] ++ apple :: [apple_caro] ∧
  sin_nombre "Apple" [banana] ∧ nombre apple = "Apple" ∧
  (consultarProducto "Apple" (eliminarProducto "Apple" almacen).1).2 =
    [Texto "Producto: "; Texto "Apple"; Texto ", Precio: ";
     Real (S754_finite false 3 0); Texto ", Cantidad: "; Entero 7;
     Endl].
Proof.
  assert (sin_nombre "Apple" [banana]) as Hl1.
  { unfold sin_nombre. repeat (constructor; [discriminate|]). constructor. }
  exact (conj eq_refl (conj Hl1 (conj eq_refl
           (consultar_tras_eliminar almacen "Apple" [banana] [apple_caro]
              apple eq_refl Hl1 eq_refl)))).
Defined.


(** ** The inventory mirrors the history *)

Lemma saldo_snoc P h c : saldo P (h ++ [c]) = (saldo P h + efecto P c)%Z.
Proof.
  unfold saldo. induction h as [|x h IH]; simpl; [lia|]. rewrite IH. lia.
Qed.

Lemma cuenta_app P l1 l2 : cuenta P (l1 ++ l2) = (cuenta P l1 + cuenta P l2)%Z.
Proof. unfold cuenta. rewrite filter_app, length_app. lia. Qed.

Lemma cuenta_cons P p l :
  cuenta P (p :: l) = (Z.b2z (P (nombre p)) + cuenta P l)%Z.
Proof.
  unfold cuenta. rewrite filter_cons.
  destruct (decide (P (nombre p) = true)) as [Hp|Hp].
  - rewrite Hp. cbn [length Z.b2z]. lia.
  - apply not_true_is_false in Hp. rewrite Hp. cbn [Z.b2z]. lia.
Qed.

Lemma cuenta_snoc P l p :
  cuenta P (l ++ [p]) = (cuenta P l + Z.b2z (P (nombre p)))%Z.
Proof.
  rewrite cuenta_app, cuenta_cons. change (cuenta P []) with 0%Z. lia.
Qed.

Lemma cuenta_middle P l1 q l2 :
  cuenta P (l1 ++ q :: l2) = (cuenta P (l1 ++ l2) + Z.b2z (P (nombre q)))%Z.
Proof. rewrite !cuenta_app, cuenta_cons. lia. Qed.

Lemma cuenta_Permutation P l l' : l ≡ₚ l' → cuenta P l = cuenta P l'.
Proof. intros Hl. unfold cuenta. by rewrite Hl. Qed.

Lemma cuenta_nonneg P l : (0 ≤ cuenta P l)%Z.
Proof. unfold cuenta. lia. Qed.

Lemma cuenta_sin_nombre n l : sin_nombre n l → cuenta (String.eqb n) l = 0%Z.
Proof.
  induction 1 as [|x l Hx _ IH]; [done|]. rewrite cuenta_cons, IH.
  replace (String.eqb n (nombre x)) with false; [done|].
  symmetry. apply String.eqb_neq. congruence.
Qed.

Lemma efecto_agregar P p : efecto P (mkCambio "agregar" p) = Z.b2z (P (nombre p)).
Proof. unfold efecto. simpl. by destruct (P (nombre p)). Qed.

Lemma efecto_eliminar P p :
  efecto P (mkCambio "eliminar" p) = (- Z.b2z (P (nombre p)))%Z.
Proof. unfold efecto. simpl. by destruct (P (nombre p)). Qed.

Lemma snoc_prefix {A} (h r r' : list A) c :
  h ++ [c] = r ++ r' → r = h ++ [c] ∨ ∃ r'', h = r ++ r''.
Proof.
  destruct (decide (r' = [])) as [->|Hne].
  - rewrite app_nil_r. auto.
  - destruct (exists_last Hne) as (r'' & x & ->). rewrite app_assoc.
    intros [Hh _]%app_inj_tail. eauto.
Qed.

Lemma espejo_push inv sol cli h c :
  (∀ P, cuenta P inv = saldo P (h ++ [c])) →
  (∀ r r' n, h = r ++ r' → (0 ≤ saldo (String.eqb n) r)%Z) →
  espejo (mkSistema inv sol cli (h ++ [c])).
Proof.
  intros Hcuenta Hpre. split; [done|]. simpl. intros r r' n Hr.
  apply snoc_prefix in Hr as [->|[r'' ->]].
  - rewrite <-Hcuenta. apply cuenta_nonneg.
  - by apply (Hpre r r'' n).
Qed.

Lemma espejo_inicial : espejo sistema_inicial.
Proof.
  split; [done|]. simpl. intros r r' n Hr.
  symmetry in Hr. apply app_eq_nil in Hr as [-> _]. done.
Qed.

Lemma espejo_registrarProducto p s :
  espejo s → espejo (registrarProducto p s).1.
Proof.
  intros [Hcuenta Hpre]. apply espejo_push; [|done]. intros P.
  rewrite cuenta_snoc, saldo_snoc, efecto_agregar, Hcuenta. done.
Qed.

Lemma espejo_eliminarProducto n s :
  espejo s → espejo (eliminarProducto n s).1.
Proof.
  intros [Hcuenta Hpre]. unfold eliminarProducto.
  destruct (find_if n (inventario s)) as [[it q]|] eqn:Hfind; [|done].
  apply find_if_Some in Hfind as (l1 & l2 & Hinv & -> & _).
  apply espejo_push; [|done]. intros P. specialize (Hcuenta P).
  rewrite Hinv, delete_middle, saldo_snoc, efecto_eliminar.
  rewrite Hinv, cuenta_middle in Hcuenta. lia.
Qed.

Lemma espejo_listarProductos s : espejo s → espejo (listarProductos s).1.
Proof.
  intros [Hcuenta Hpre]. split; [|done]. intros P. simpl.
  by rewrite (cuenta_Permutation P _ _ (list_sort_Permutation comp _)).
Qed.

(** In a state that mirrors its history, the product of an ["agregar"]
    entry at the end of the history is in the inventory. *)
Lemma espejo_agregar_found s h c :
  espejo s → historialCambios s = h ++ [c] → tipo c = "agregar" →
  ∃ l1 q l2,
    inventario s = l1 ++ q :: l2 ∧
    find_if (nombre (producto c)) (inventario s) = Some (length l1, q) ∧
    sin_nombre (nombre (producto c)) l1 ∧
    nombre q = nombre (producto c).
Proof.
  intros [Hcuenta Hpre] Hh Ht.
  destruct (find_if (nombre (producto c)) (inventario s)) as [[it q]|]
    eqn:Hfind.
  - apply find_if_Some in Hfind as (l1 & l2 & Hinv & -> & Hq & Hl1).
    by exists l1, q, l2.
  - apply find_if_None, cuenta_sin_nombre in Hfind.
    specialize (Hcuenta (String.eqb (nombre (producto c)))).
    specialize (Hpre h [c] (nombre (producto c)) Hh).
    rewrite Hh, saldo_snoc in Hcuenta. unfold efecto in Hcuenta.
    rewrite String.eqb_refl, Ht in Hcuenta. simpl in Hcuenta. lia.
Qed.

Lemma espejo_deshacerUltimaAccion s :
  espejo s → espejo (deshacerUltimaAccion s).1.
Proof.
  intros Hs. unfold deshacerUltimaAccion.
  destruct (pop_back (historialCambios s)) as [[h c]|] eqn:Hpop; [|done].
  apply pop_back_Some in Hpop.
  assert (∀ r r' n, h = r ++ r' → (0 ≤ saldo (String.eqb n) r)%Z) as Hpre.
  { intros r r' n ->. apply (proj2 Hs r (r' ++ [c]) n).
    by rewrite Hpop, app_assoc. }
  pose proof (proj1 Hs) as Hcuenta.
  destruct (String.eqb (tipo c) "agregar") eqn:Hagregar.
  - apply String.eqb_eq in Hagregar as Ht.
    destruct (espejo_agregar_found s h c Hs Hpop Ht)
      as (l1 & q & l2 & Hinv & Hfind & _ & Hq).
    rewrite Hfind. split; [|done]. intros P. simpl.
    specialize (Hcuenta P).
    rewrite Hinv, delete_middle.
    rewrite Hinv, cuenta_middle, Hpop, saldo_snoc in Hcuenta.
    unfold efecto in Hcuenta. rewrite Hagregar, Hq in Hcuenta.
    destruct (P (nombre (producto c))); simpl in Hcuenta; lia.
  - destruct (String.eqb (tipo c) "eliminar") eqn:Heliminar.
    + split; [|done]. intros P. simpl. specialize (Hcuenta P).
      rewrite cuenta_snoc. rewrite Hpop, saldo_snoc in Hcuenta.
      unfold efecto in Hcuenta. rewrite Hagregar, Heliminar in Hcuenta.
      destruct (P (nombre (producto c))); simpl in *; lia.
    + split; [|done]. intros P. simpl. specialize (Hcuenta P).
      rewrite Hpop, saldo_snoc in Hcuenta.
      unfold efecto in Hcuenta. rewrite Hagregar, Heliminar in Hcuenta.
      destruct (P (nombre (producto c))); simpl in *; lia.
Qed.

Lemma espejo_ejecutar op s : espejo s → espejo (ejecutar op s).1.
Proof.
  intros Hs. destruct op; cbn [ejecutar].
  - by apply espejo_registrarProducto.
  - by apply espejo_eliminarProducto.
  - unfold consultarProducto. by destruct (find_if _ _) as [[??]|].
  - by apply espejo_listarProductos.
  - done.
  - unfold procesarSolicitud. by destruct (solicitudes s).
  - unfold consultarSolicitudEnProceso. by destruct (solicitudes s).
  - done.
  - done.
  - unfold atenderCliente. by destruct (clientesEnEspera s).
  - done.
  - by apply espejo_deshacerUltimaAccion.
Qed.

Lemma espejo_sesion ops s : espejo s → espejo (sesion ops s).
Proof.
  intros Hs. induction ops as [|op ops IH] using rev_ind; [done|].
  rewrite sesion_snoc. by apply espejo_ejecutar.
Qed.

Lemma cuenta_todos l : cuenta (λ _, true) l = Z.of_nat (length l).
Proof.
  unfold cuenta. do 2 f_equal. induction l as [|x l IH]; [done|].
  rewrite filter_cons_True by done. by rewrite IH.
Qed.

Lemma cuenta_llamados n l :
  cuenta (String.eqb n) l = Z.of_nat (length (llamados n l)).
Proof.
  unfold cuenta, llamados. do 2 f_equal. apply list_filter_iff.
  intros p. rewrite String.eqb_eq. naive_solver.
Qed.

(** In every state that a session reaches from the initial state, the
    inventory mirrors the history: the number of products is the number of
    ["agregar"] entries minus the number of ["eliminar"] entries, and the
    same holds for the products and the entries of each single name (and
    of any set of names). *)
Theorem inventario_espejo_historial (ops : list Opcion) :
  let s := sesion ops sistema_inicial in
  (∀ P, cuenta P (inventario s) = saldo P (historialCambios s)) ∧
  Z.of_nat (length (inventario s)) = saldo (λ _, true) (historialCambios s) ∧
  ∀ n, Z.of_nat (length (llamados n (inventario s)))
       = saldo (String.eqb n) (historialCambios s).
Proof.
  intros s.
  destruct (espejo_sesion ops sistema_inicial espejo_inicial) as [Hcuenta _].
  fold s in Hcuenta. split_and!; [done|..].
  - by rewrite <-cuenta_todos.
  - intros n. by rewrite <-cuenta_llamados.
Qed.

(** In a session the undo never runs dry: the entry it takes from the
    history is an ["agregar"] entry whose name is still in the inventory,
    so that one product is erased and the message printed, or an
    ["eliminar"] entry whose product is put back. The branch of
    [deshacerUltimaAccion] that only drops the entry is not reached. *)
Theorem deshacer_en_sesion_actua
  (ops : list Opcion) (h : list Cambio) (c : Cambio) :
  historialCambios (sesion ops sistema_inicial) = h ++ [c] →
  let s := sesion ops sistema_inicial in
  let n := nombre (producto c) in
  (tipo c = "agregar" ∧
   ∃ l1 q l2,
     inventario s = l1 ++ q :: l2 ∧ sin_nombre n l1 ∧ nombre q = n ∧
     deshacerUltimaAccion s =
       (mkSistema (l1 ++ l2) (solicitudes s) (clientesEnEspera s) h,
        [Texto "Deshacer: Producto agregado eliminado: "; Texto n; Endl])) ∨
  (tipo c = "eliminar" ∧
   deshacerUltimaAccion s =
     (mkSistema (inventario s ++ [producto c]) (solicitudes s)
        (clientesEnEspera s) h,
      [Texto "Deshacer: Producto eliminado restaurado: "; Texto n; Endl])).
Proof.
  intros Hh s n. subst s n.
  pose proof (espejo_sesion ops sistema_inicial espejo_inicial) as Hs.
  pose proof (historial_origen ops) as Horigen.
  rewrite Hh in Horigen. apply Forall_app in Horigen as [_ Hc].
  apply Forall_inv in Hc. unfold deshacerUltimaAccion.
  rewrite Hh, pop_back_snoc.
  destruct Hc as [[Ht _]|[Ht _]]; rewrite Ht; simpl.
  - left. split; [done|].
    destruct (espejo_agregar_found _ h c Hs Hh Ht)
      as (l1 & q & l2 & Hinv & Hfind & Hl1 & Hq).
    rewrite Hfind. exists l1, q, l2.
    rewrite Hinv at 2. by rewrite delete_middle.
  - right. done.
Qed.

Lemma deshacer_en_sesion_actua_witness :
  historialCambios (sesion altas sistema_inicial)
    = [mkCambio "agregar" banana; mkCambio "agregar" apple]
      ++ [mkCambio "agregar" apple_caro] ∧
  ((tipo (mkCambio "agregar" apple_caro) = "agregar" ∧
    ∃ l1 q l2,
      inventario (sesion altas sistema_inicial) = l1 ++ q :: l2 ∧
      sin_nombre "Apple" l1 ∧ nombre q = "Apple" ∧
      deshacerUltimaAccion (sesion altas sistema_inicial) =
        (mkSistema (l1 ++ l2) [] []
           [mkCambio "agregar" banana; mkCambio "agregar" apple],
         [Texto "Deshacer: Producto agregado eliminado: "; Texto "Apple";
          Endl])) ∨
   (tipo (mkCambio "agregar" apple_caro) = "eliminar" ∧
    deshacerUltimaAccion (sesion altas sistema_inicial) =
      (mkSistema (inventario (sesion altas sistema_inicial) ++ [apple_caro])
         [] [] [mkCambio "agregar" banana; mkCambio "agregar" apple],
       [Texto "Deshacer: Producto eliminado restaurado: "; Texto "Apple";
        Endl]))).
Proof.
  exact (conj eq_refl
           (deshacer_en_sesion_actua altas
              [mkCambio "agregar" banana; mkCambio "agregar" apple]
              (mkCambio "agregar" apple_caro) eq_refl)).
Defined.


(** ** Repeated undo *)

Lemma repetir_S metodo n s :
  repetir metodo (S n) s =
    ((repetir metodo n (metodo s).1).1,
     (metodo s).2 ++ (repetir metodo n (metodo s).1).2).
Proof. done. Qed.

Lemma repetir_ejecutar_sesion op n : ∀ s,
  (repetir (ejecutar op) n s).1 = sesion (replicate n op) s.
Proof. induction n as [|n IH]; intros s; [done|]. simpl. by rewrite IH. Qed.

Lemma deshacer_colas s :
  solicitudes (deshacerUltimaAccion s).1 = solicitudes s ∧
  clientesEnEspera (deshacerUltimaAccion s).1 = clientesEnEspera s.
Proof.
  unfold deshacerUltimaAccion.
  destruct (pop_back _) as [[h c]|]; [|done].
  destruct (String.eqb _ _); [|by destruct (String.eqb _ _)].
  by destruct (find_if _ _) as [[??]|].
Qed.

Lemma repetir_deshacer_colas n : ∀ s,
  solicitudes (repetir deshacerUltimaAccion n s).1 = solicitudes s ∧
  clientesEnEspera (repetir deshacerUltimaAccion n s).1 = clientesEnEspera s.
Proof.
  induction n as [|n IH]; intros s; [done|]. rewrite repetir_S. simpl.
  destruct (IH (deshacerUltimaAccion s).1) as [-> ->].
  apply deshacer_colas.
Qed.

Lemma historial_deshacer s :
  historialCambios (deshacerUltimaAccion s).1
    = removelast (historialCambios s).
Proof. exact (historial_ejecutar DeshacerUltimaAccion s). Qed.

Lemma historial_repetir_deshacer (k : nat) (s : SistemaGestion) :
  historialCambios (repetir deshacerUltimaAccion k s).1
    = take (length (historialCambios s) - k) (historialCambios s).
Proof.
  revert s. induction k as [|k IH]; intros s.
  { simpl. by rewrite Nat.sub_0_r, firstn_all. }
  rewrite repetir_S. simpl. rewrite IH.
  rewrite historial_deshacer.
  rewrite removelast_firstn_len, take_take, length_take.
  f_equal. lia.
Qed.

(** Whatever the state, [k] calls of [deshacerUltimaAccion] take the [k]
    most recent entries from the history, whatever their [tipo], and leave
    the older entries as they are; once the history is empty further calls
    take nothing. *)
Theorem deshacer_k_veces (k : nat) (s : SistemaGestion) :
  historialCambios (repetir deshacerUltimaAccion k s).1
    = take (length (historialCambios s) - k) (historialCambios s).
Proof. apply historial_repetir_deshacer. Qed.

(** Undoing the whole history of a session empties the inventory, as in
    the initial state, and leaves both queues as they are. *)
Theorem deshacer_todo (ops : list Opcion) :
  let s := sesion ops sistema_inicial in
  let s' :=
    (repetir deshacerUltimaAccion (length (historialCambios s)) s).1 in
  inventario s' = [] ∧ historialCambios s' = [] ∧
  solicitudes s' = solicitudes s ∧
  clientesEnEspera s' = clientesEnEspera s.
Proof.
  intros s s'.
  assert (historialCambios s' = []) as Hh.
  { subst s'. rewrite historial_repetir_deshacer, Nat.sub_diag. done. }
  assert (espejo s') as [Hcuenta _].
  { subst s'.
    change deshacerUltimaAccion with (ejecutar DeshacerUltimaAccion).
    rewrite repetir_ejecutar_sesion.
    apply espejo_sesion, espejo_sesion, espejo_inicial. }
  split_and!; [|done|apply repetir_deshacer_colas..].
  specialize (Hcuenta (λ _, true)).
  rewrite cuenta_todos, Hh in Hcuenta. simpl in Hcuenta.
  apply length_zero_iff_nil. lia.
Qed.

Lemma sesion_registrar_productos ps : ∀ s,
  sesion (map RegistrarProducto ps) s =
    mkSistema (inventario s ++ ps) (solicitudes s) (clientesEnEspera s)
      (historialCambios s ++ map (mkCambio "agregar") ps).
Proof.
  induction ps as [|p ps IH]; intros s.
  { simpl. rewrite !app_nil_r. by destruct s. }
  change (sesion (map RegistrarProducto (p :: ps)) s)
    with (sesion (map RegistrarProducto ps) (registrarProducto p s).1).
  rewrite IH. simpl. by rewrite <-!app_assoc.
Qed.

(** Undo is last in, first out: after registering products whose names
    are new to the inventory and differ from one another, as many undos
    give back exactly the state before the registrations, taking the
    products away from the last one registered to the first. *)
Theorem registrar_deshacer_lifo (ps : list Producto) (s : SistemaGestion) :
  NoDup (map nombre ps) →
  Forall (λ p, sin_nombre (nombre p) (inventario s)) ps →
  (repetir deshacerUltimaAccion (length ps)
     (sesion (map RegistrarProducto ps) s)).1 = s ∧
  (repetir deshacerUltimaAccion (length ps)
     (sesion (map RegistrarProducto ps) s)).2
    = concat (map (λ p, [Texto "Deshacer: Producto agregado eliminado: ";
                         Texto (nombre p); Endl]) (reverse ps)).
Proof.
  induction ps as [|p ps IH] using rev_ind; intros Hdup Hfresh.
  { simpl. done. }
  rewrite map_app in Hdup. simpl in Hdup.
  apply NoDup_app in Hdup as (Hdup & Hp & _).
  apply Forall_app in Hfresh as [Hfresh Hpfresh].
  apply Forall_inv in Hpfresh.
  rewrite length_app. simpl. rewrite Nat.add_1_r, repetir_S.
  assert (deshacerUltimaAccion (sesion (map RegistrarProducto (ps ++ [p])) s)
          = (sesion (map RegistrarProducto ps) s,
             [Texto "Deshacer: Producto agregado eliminado: ";
              Texto (nombre p); Endl])) as ->.
  { rewrite !sesion_registrar_productos. unfold deshacerUltimaAccion. simpl.
    rewrite map_app, app_assoc. simpl. rewrite pop_back_snoc. simpl.
    assert (find_if (nombre p) (inventario s ++ ps ++ [p])
            = Some (length (inventario s ++ ps), p)) as ->.
    { apply find_if_Some. exists (inventario s ++ ps), [].
      split_and!; [by rewrite app_assoc|done..|].
      apply Forall_app. split; [done|].
      apply Forall_forall. intros q Hq Heq.
      apply (Hp (nombre p)); [|left].
      rewrite <-Heq. by apply list_elem_of_fmap_2. }
    rewrite app_assoc, delete_middle, app_nil_r. done. }
  simpl. destruct (IH Hdup Hfresh) as [-> ->].
  by rewrite reverse_app.
Qed.

Lemma registrar_deshacer_lifo_witness :
  NoDup (map nombre [cereza; widget]) ∧
  Forall (λ p, sin_nombre (nombre p) (inventario almacen)) [cereza; widget] ∧
  (repetir deshacerUltimaAccion 2
     (sesion (map RegistrarProducto [cereza; widget]) almacen)).1 = almacen ∧
  (repetir deshacerUltimaAccion 2
     (sesion (map RegistrarProducto [cereza; widget]) almacen)).2
    = [Texto "Deshacer: Producto agregado eliminado: "; Texto "Widget"; Endl;
       Texto "Deshacer: Producto agregado eliminado: "; Texto "Cereza"; Endl].
Proof.
  assert (NoDup (map nombre [cereza; widget])) as Hdup.
  { apply NoDup_cons. split; [|apply NoDup_singleton].
    intros [=]%list_elem_of_singleton. }
  assert (Forall (λ p, sin_nombre (nombre p) (inventario almacen))
            [cereza; widget]) as Hfresh.
  { unfold sin_nombre.
    repeat (constructor; [repeat (constructor; [discriminate|]); constructor|]).
    constructor. }
  exact (conj Hdup (conj Hfresh
           (registrar_deshacer_lifo [cereza; widget] almacen Hdup Hfresh))).
Defined.


(** ** The two queues, first in, first out *)

Lemma sesion_registrar_solicitudes rs : ∀ s,
  sesion (map RegistrarSolicitud rs) s =
    mkSistema (inventario s) (solicitudes s ++ rs) (clientesEnEspera s)
      (historialCambios s).
Proof.
  induction rs as [|r rs IH]; intros s.
  { simpl. rewrite app_nil_r. by destruct s. }
  change (sesion (map RegistrarSolicitud (r :: rs)) s)
    with (sesion (map RegistrarSolicitud rs) (registrarSolicitud r s).1).
  rewrite IH. simpl. by rewrite <-app_assoc.
Qed.

Lemma sesion_registrar_clientes cs : ∀ s,
  sesion (map RegistrarClienteEnEspera cs) s =
    mkSistema (inventario s) (solicitudes s) (clientesEnEspera s ++ cs)
      (historialCambios s).
Proof.
  induction cs as [|c cs IH]; intros s.
  { simpl. rewrite app_nil_r. by destruct s. }
  change (sesion (map RegistrarClienteEnEspera (c :: cs)) s)
    with (sesion (map RegistrarClienteEnEspera cs)
            (registrarClienteEnEspera c s).1).
  rewrite IH. simpl. by rewrite <-app_assoc.
Qed.

Lemma repetir_procesarSolicitud (k : nat) (s : SistemaGestion) :
  repetir procesarSolicitud k s =
    (mkSistema (inventario s) (drop k (solicitudes s)) (clientesEnEspera s)
       (historialCambios s),
     concat (map linea_procesando (take k (solicitudes s)))
     ++ concat (replicate (k - length (solicitudes s))
                  [Texto "No hay solicitudes pendientes."; Endl])).
Proof.
  revert s. induction k as [|k IH]; intros s.
  { simpl. by destruct s. }
  rewrite repetir_S, IH. unfold procesarSolicitud.
  destruct s as [inv [|r q] cli h]; simpl.
  - by rewrite drop_nil, take_nil, Nat.sub_0_r.
  - done.
Qed.

(** [k] calls of [procesarSolicitud] process the [k] oldest requests, each
    printed once and in the order of the queue, and leave the younger ones
    in their order; calls beyond the length of the queue print
    "No hay solicitudes pendientes." and change nothing. The inventory,
    the waiting list and the history are never touched. *)
Theorem procesarSolicitud_k_veces (k : nat) (s : SistemaGestion) :
  repetir procesarSolicitud k s =
    (mkSistema (inventario s) (drop k (solicitudes s)) (clientesEnEspera s)
       (historialCambios s),
     concat (map linea_procesando (take k (solicitudes s)))
     ++ concat (replicate (k - length (solicitudes s))
                  [Texto "No hay solicitudes pendientes."; Endl])).
Proof. apply repetir_procesarSolicitud. Qed.

(** Requests are served in the order of their registration: after
    registering the requests [rs], processing as many requests as the
    queue holds prints the requests that were already waiting and then
    [rs], in this order, and empties the queue. *)
Theorem solicitudes_fifo (rs : list Solicitud) (s : SistemaGestion) :
  repetir procesarSolicitud (length (solicitudes s ++ rs))
    (sesion (map RegistrarSolicitud rs) s)
  = (mkSistema (inventario s) [] (clientesEnEspera s) (historialCambios s),
     concat (map linea_procesando (solicitudes s ++ rs))).
Proof.
  rewrite repetir_procesarSolicitud, sesion_registrar_solicitudes. simpl.
  by rewrite drop_all, firstn_all, Nat.sub_diag, app_nil_r.
Qed.

Lemma repetir_atenderCliente (k : nat) (s : SistemaGestion) :
  repetir atenderCliente k s =
    (mkSistema (inventario s) (solicitudes s) (drop k (clientesEnEspera s))
       (historialCambios s),
     concat (map linea_atendiendo (take k (clientesEnEspera s)))
     ++ concat (replicate (k - length (clientesEnEspera s))
                  [Texto "No hay clientes en espera."; Endl])).
Proof.
  revert s. induction k as [|k IH]; intros s.
  { simpl. by destruct s. }
  rewrite repetir_S, IH. unfold atenderCliente.
  destruct s as [inv sol [|c q] h]; simpl.
  - by rewrite drop_nil, take_nil, Nat.sub_0_r.
  - done.
Qed.

(** The same for the waiting list: [k] calls of [atenderCliente] attend
    the [k] clients that have waited longest, in their order; calls beyond
    the length of the list print "No hay clientes en espera." and change
    nothing. *)
Theorem atenderCliente_k_veces (k : nat) (s : SistemaGestion) :
  repetir atenderCliente k s =
    (mkSistema (inventario s) (solicitudes s) (drop k (clientesEnEspera s))
       (historialCambios s),
     concat (map linea_atendiendo (take k (clientesEnEspera s)))
     ++ concat (replicate (k - length (clientesEnEspera s))
                  [Texto "No hay clientes en espera."; Endl])).
Proof. apply repetir_atenderCliente. Qed.

(** Clients are attended in the order of their registration. *)
Theorem clientes_fifo (cs : list Cliente) (s : SistemaGestion) :
  repetir atenderCliente (length (clientesEnEspera s ++ cs))
    (sesion (map RegistrarClienteEnEspera cs) s)
  = (mkSistema (inventario s) (solicitudes s) [] (historialCambios s),
     concat (map linea_atendiendo (clientesEnEspera s ++ cs))).
Proof.
  rewrite repetir_atenderCliente, sesion_registrar_clientes. simpl.
  by rewrite drop_all, firstn_all, Nat.sub_diag, app_nil_r.
Qed.

(** [consultarSolicitudEnProceso] shows the request that the next
    [procesarSolicitud] handles, without taking it from the queue: both
    print the same description, and processing after the look gives the
    same state as processing at once. On an empty queue each prints its
    own message. *)
Theorem consultarSolicitudEnProceso_peek (s : SistemaGestion) :
  (solicitudes s = [] ∧
   consultarSolicitudEnProceso s
     = (s, [Texto "No hay solicitudes en proceso."; Endl]) ∧
   procesarSolicitud s
     = (s, [Texto "No hay solicitudes pendientes."; Endl])) ∨
  (∃ r resto,
     solicitudes s = r :: resto ∧
     consultarSolicitudEnProceso s
       = (s, [Texto "Solicitud en proceso: "; Texto (descripcion r); Endl]) ∧
     procesarSolicitud s
       = (mkSistema (inventario s) resto (clientesEnEspera s)
            (historialCambios s), linea_procesando r) ∧
     procesarSolicitud (consultarSolicitudEnProceso s).1
       = procesarSolicitud s).
Proof.
  unfold consultarSolicitudEnProceso, procesarSolicitud.
  destruct (solicitudes s) as [|r resto] eqn:Hq; [by left|].
  right. exists r, resto. cbn [fst]. by rewrite Hq.
Qed.

(** [listarSolicitudesPendientes] prints one line per pending request, in
    the order of the queue, and changes nothing; a registration adds its
    line at the end of the listing and a processed request takes the first
    line away. *)
Theorem listarSolicitudesPendientes_lines
  (s : SistemaGestion) (r : Solicitud) :
  listarSolicitudesPendientes s
    = (s, concat (map linea_pendiente (solicitudes s))) ∧
  (listarSolicitudesPendientes (registrarSolicitud r s).1).2
    = (listarSolicitudesPendientes s).2 ++ linea_pendiente r ∧
  (listarSolicitudesPendientes (procesarSolicitud s).1).2
    = drop 3 (listarSolicitudesPendientes s).2 ∧
  length (listarSolicitudesPendientes s).2 = 3 * length (solicitudes s).
Proof.
  unfold listarSolicitudesPendientes, procesarSolicitud.
  destruct s as [inv q cli h]. cbn [solicitudes fst snd registrarSolicitud].
  split_and!; [done|..].
  - by rewrite map_app, concat_app.
  - by destruct q.
  - induction q as [|x q IH]; [done|]. simpl. lia.
Qed.

(** [consultarListaDeEspera] prints one line per waiting client, in the
    order of the list, and changes nothing; a registration adds its line at
    the end and an attended client takes the first line away. *)
Theorem consultarListaDeEspera_lines (s : SistemaGestion) (c : Cliente) :
  consultarListaDeEspera s
    = (s, concat (map linea_en_espera (clientesEnEspera s))) ∧
  (consultarListaDeEspera (registrarClienteEnEspera c s).1).2
    = (consultarListaDeEspera s).2 ++ linea_en_espera c ∧
  (consultarListaDeEspera (atenderCliente s).1).2
    = drop 3 (consultarListaDeEspera s).2 ∧
  length (consultarListaDeEspera s).2 = 3 * length (clientesEnEspera s).
Proof.
  unfold consultarListaDeEspera, atenderCliente.
  destruct s as [inv sol q h].
  cbn [clientesEnEspera fst snd registrarClienteEnEspera].
  split_and!; [done|..].
  - by rewrite map_app, concat_app.
  - by destruct q.
  - induction q as [|x q IH]; [done|]. simpl. lia.
Qed.

(** ** Listing and the order of the inventory *)

(** Listing twice is listing once: the second [listarProductos] finds the
    inventory sorted, leaves it as it is and prints the same lines. *)
Theorem listarProductos_idempotent (s : SistemaGestion) :
  listarProductos (listarProductos s).1
    = ((listarProductos s).1, (listarProductos s).2).
Proof.
  unfold listarProductos. simpl.
  assert (list_sort comp (list_sort comp (inventario s))
          = list_sort comp (inventario s)) as ->; [|done].
  symmetry. apply list_sort_characterised;
    [apply comp_asym|apply not_after_comp_trans| |done].
  apply list_sort_Sorted. apply comp_asym.
Qed.

(** The reordering done by [listarProductos] does not change which of
    several products with one name is the first: a query prints the same
    line after a listing as before it, and a deletion erases and logs the
    same product. *)
Theorem listarProductos_keeps_first (s : SistemaGestion) (n : string) :
  (consultarProducto n (listarProductos s).1).2 = (consultarProducto n s).2 ∧
  (eliminarProducto n (listarProductos s).1).2 = (eliminarProducto n s).2 ∧
  historialCambios (eliminarProducto n (listarProductos s).1).1
    = historialCambios (eliminarProducto n s).1 ∧
  inventario (eliminarProducto n (listarProductos s).1).1
    ≡ₚ inventario (eliminarProducto n s).1.
Proof.
  unfold consultarProducto, eliminarProducto. simpl.
  pose proof (find_if_head n (list_sort comp (inventario s))) as Hsorted.
  rewrite list_sort_comp_llamados, <-find_if_head in Hsorted.
  pose proof (list_sort_Permutation comp (inventario s)) as Hperm.
  destruct (find_if n (list_sort comp (inventario s))) as [[i1 q1]|] eqn:H1,
           (find_if n (inventario s)) as [[i2 q2]|] eqn:H2;
    simpl in Hsorted; try done.
  injection Hsorted as ->. simpl. split_and!; try done.
  apply find_if_Some in H1 as (a1 & b1 & Ha & -> & _).
  apply find_if_Some in H2 as (a2 & b2 & Hb & -> & _).
  rewrite Ha, Hb in Hperm |- *. rewrite !delete_middle.
  rewrite <-!Permutation_middle in Hperm.
  by apply Permutation_cons_inv in Hperm.
Qed.

(** The comparison that [listarProductos] hands to [sort] is a strict weak
    ordering, as [std::list::sort] requires of it: no product is before
    itself, the order is transitive, and two products are equivalent for
    it exactly when they have the same name. *)
Theorem comp_strict_weak_ordering :
  (∀ a, comp a a = false) ∧
  (∀ a b c, comp a b = true → comp b c = true → comp a c = true) ∧
  (∀ a b, equiv_lt comp a b ↔ nombre a = nombre b) ∧
  (∀ a b c, equiv_lt comp a b → equiv_lt comp b c → equiv_lt comp a c).
Proof.
  split_and!.
  - intros a. destruct (comp a a) eqn:Ha; [|done].
    apply comp_asym in Ha as Ha'. congruence.
  - intros a b c. unfold comp, String.ltb.
    destruct (String.compare (nombre a) (nombre b)) eqn:Hab; try done.
    destruct (String.compare (nombre b) (nombre c)) eqn:Hbc; try done.
    by rewrite (string_compare_lt_trans _ _ _ Hab Hbc).
  - apply equiv_lt_comp.
  - intros a b c. rewrite !equiv_lt_comp. congruence.
Qed.

(** What [listarProductos] stores and prints is fixed by the inventory:
    any arrangement of the products that is in non-decreasing name order
    and keeps the products of each name in the order of the inventory is
    the one that [listarProductos] leaves. *)
Theorem listarProductos_determined
  (s : SistemaGestion) (l : list Producto) :
  Sorted nombre_le l →
  (∀ n, llamados n l = llamados n (inventario s)) →
  listarProductos s
    = (mkSistema l (solicitudes s) (clientesEnEspera s) (historialCambios s),
       concat (map (λ p, [Texto "Producto: "; Texto (nombre p); Texto ", Precio: ";
                          Real (precio p); Texto ", Cantidad: ";
                          Entero (cantidad p); Endl])
                   l)).
Proof.
  intros Hsorted Hstable. unfold listarProductos.
  assert (l = list_sort comp (inventario s)) as <-; [|done].
  apply list_sort_characterised;
    [apply comp_asym|apply not_after_comp_trans|..].
  - clear -Hsorted. induction Hsorted as [|x l _ IH Hhd]; constructor; [done|].
    destruct Hhd; constructor. by apply not_after_comp.
  - intros z. specialize (Hstable (nombre z)). unfold llamados in Hstable.
    rewrite !(list_filter_iff (equiv_lt comp z) (λ p, nombre p = nombre z))
      by (intros p; rewrite equiv_lt_comp; naive_solver).
    done.
Qed.

Lemma listarProductos_determined_witness :
  Sorted nombre_le [apple; apple_caro; banana] ∧
  (∀ n, llamados n [apple; apple_caro; banana]
        = llamados n (inventario almacen)) ∧
  listarProductos almacen
    = (mkSistema [apple; apple_caro; banana] (solicitudes almacen)
         (clientesEnEspera almacen) (historialCambios almacen),
       [Texto "Producto: "; Texto "Apple"; Texto ", Precio: ";
        Real (S754_finite false 1 0); Texto ", Cantidad: "; Entero 1; Endl;
        Texto "Producto: "; Texto "Apple"; Texto ", Precio: ";
        Real (S754_finite false 3 0); Texto ", Cantidad: "; Entero 7; Endl;
        Texto "Producto: "; Texto "Banana"; Texto ", Precio: ";
        Real (S754_finite false 1 1); Texto ", Cantidad: "; Entero 1; Endl]).
Proof.
  assert (Sorted nombre_le [apple; apple_caro; banana]) as Hsorted.
  { repeat constructor. }
  assert (∀ n, llamados n [apple; apple_caro; banana]
               = llamados n (inventario almacen)) as Hstable.
  { intros n. unfold llamados. simpl. rewrite !filter_cons, !filter_nil.
    simpl. repeat case_decide; congruence. }
  exact (conj Hsorted (conj Hstable
           (listarProductos_determined almacen [apple; apple_caro; banana]
              Hsorted Hstable))).
Defined.


(** ** Where the products come from *)

Lemma registrados_sesion (ops : list Opcion) :
  Forall (λ p, RegistrarProducto p ∈ ops)
    (inventario (sesion ops sistema_inicial)) ∧
  Forall (λ c, RegistrarProducto (producto c) ∈ ops)
    (historialCambios (sesion ops sistema_inicial)).
Proof.
  induction ops as [|op ops [IHinv IHhist]] using rev_ind; [done|].
  rewrite sesion_snoc. set (s := sesion ops sistema_inicial) in *.
  assert (Forall (λ p, RegistrarProducto p ∈ ops ++ [op]) (inventario s))
    as Hinv.
  { eapply Forall_impl; [exact IHinv|]. intros p Hp. apply elem_of_app. auto. }
  assert (Forall (λ c, RegistrarProducto (producto c) ∈ ops ++ [op])
            (historialCambios s)) as Hhist.
  { eapply Forall_impl; [exact IHhist|]. intros p Hp. apply elem_of_app. auto. }
  clear IHinv IHhist.
  assert (∀ it n q, find_if n (inventario s) = Some (it, q) →
            RegistrarProducto q ∈ ops ++ [op] ∧
            Forall (λ p, RegistrarProducto p ∈ ops ++ [op])
              (delete it (inventario s))) as Hdelete.
  { intros it n q (l1 & l2 & Hl & -> & _)%find_if_Some.
    rewrite Hl in Hinv |- *. rewrite delete_middle.
    apply Forall_app in Hinv as [H1 [Hq H2]%Forall_cons].
    split; [done|]. by apply Forall_app. }
  destruct op; cbn [ejecutar]; try done.
  - simpl. split; (apply Forall_app; split; [done|]);
      apply Forall_singleton; simpl; apply elem_of_app; right; left.
  - unfold eliminarProducto.
    destruct (find_if _ _) as [[it q]|] eqn:Hfind; [|done].
    destruct (Hdelete _ _ _ Hfind) as [Hq Hrest]. simpl. split; [done|].
    apply Forall_app. split; [done|]. by apply Forall_singleton.
  - unfold consultarProducto. by destruct (find_if _ _) as [[??]|].
  - simpl. split; [|done].
    by rewrite (list_sort_Permutation comp (inventario s)).
  - unfold procesarSolicitud. by destruct (solicitudes s).
  - unfold consultarSolicitudEnProceso. by destruct (solicitudes s).
  - unfold atenderCliente. by destruct (clientesEnEspera s).
  - unfold deshacerUltimaAccion.
    destruct (pop_back _) as [[h c]|] eqn:Hpop; [|done].
    apply pop_back_Some in Hpop. rewrite Hpop in Hhist.
    apply Forall_app in Hhist as [Hh Hc]. apply Forall_inv in Hc.
    destruct (String.eqb _ _).
    + destruct (find_if _ _) as [[it q]|] eqn:Hfind; [|done].
      destruct (Hdelete _ _ _ Hfind) as [_ Hrest]. done.
    + destruct (String.eqb _ _); [|done]. simpl. split; [|done].
      apply Forall_app. split; [done|]. by apply Forall_singleton.
Qed.

(** The methods never make up or alter a product: every product that a
    session holds in the inventory, with its name, price and quantity, is
    one that a registration of the session was given, and so is the
    product of every history entry. *)
Theorem inventario_registrado (ops : list Opcion) (p : Producto) :
  p ∈ inventario (sesion ops sistema_inicial)
  ∨ p ∈ map producto (historialCambios (sesion ops sistema_inicial)) →
  RegistrarProducto p ∈ ops.
Proof.
  destruct (registrados_sesion ops) as [Hinv Hhist]. intros [Hp|Hp].
  - by apply (proj1 (Forall_forall _ _) Hinv).
  - apply list_elem_of_fmap in Hp as (c & -> & Hc).
    by apply (proj1 (Forall_forall _ _) Hhist).
Qed.

Lemma inventario_registrado_witness :
  (apple ∈ inventario (sesion altas sistema_inicial)
   ∨ apple ∈ map producto (historialCambios (sesion altas sistema_inicial))) ∧
  RegistrarProducto apple ∈ altas.
Proof.
  assert (apple ∈ inventario (sesion altas sistema_inicial)
          ∨ apple ∈ map producto
                      (historialCambios (sesion altas sistema_inicial)))
    as Hp.
  { left. apply list_elem_of_further, list_elem_of_here. }
  exact (conj Hp (inventario_registrado altas apple Hp)).
Defined.

